(** * Viewport bounds of the coverage map ([src/components/Map/Map.js])

    A shallow embedding of the [CoverageMap] component: its constants, the
    padding/animation policy ([fitBoundsOptions]), the click handler
    ([handleHotspotClick]), the three bounds effects and the asynchronous
    resolution of the selected transaction, as a state machine over the
    component's React state.

    Numbers.  Coordinates are JavaScript numbers.  Only comparisons and
    literal constants of them are used by the component, so they are
    modelled as rationals [Q] (every finite double is one); NaN and the
    infinities are outside the model. *)

From Stdlib Require Import QArith Qminmax ZArith Lia.
From stdpp Require Import base option list strings gmap.

Open Scope Q_scope.

(** ** Data model *)

(** [{ lat, lng }] *)
Record GeoPoint : Type := mkPoint { lat : Q; lng : Q }.

(** A corner of a box: the array [[lng, lat]], longitude first. *)
Definition LngLat : Type := (Q * Q)%type.

(** The array [[northeast, southwest]] handed to [fitBounds]. *)
Record BoundingBox : Type := mkBox { northeast : LngLat; southwest : LngLat }.

(** Exceptions that can be thrown while the component runs. *)
Inductive Exn : Type :=
| InvalidArgument   (* findBounds on an empty point-set *)
| TypeError         (* property access on undefined *)
| DecodeError       (* a decoder that rejects its argument *)
| FetchError.       (* fetchHotspot rejected *)

Inductive Result (A : Type) : Type :=
| Ok (a : A)
| Throw (e : Exn).
Arguments Ok {A} a.
Arguments Throw {A} e.

(** ** BoundsCalculator *)

(** The running extremes of the single pass:
    [maxLat, minLat, maxLng, minLng]. *)
Record Extremes : Type :=
  mkExt { maxLat : Q; minLat : Q; maxLng : Q; minLng : Q }.

Definition extend (acc : Extremes) (p : GeoPoint) : Extremes :=
  {| maxLat := Qmax (maxLat acc) (lat p);
     minLat := Qmin (minLat acc) (lat p);
     maxLng := Qmax (maxLng acc) (lng p);
     minLng := Qmin (minLng acc) (lng p) |}.

(** Modelled from the spec: [findBounds] of [utils/location], imported by
    [Map.js] but not part of the sources at hand.  Spec 4.1: the point-set
    must contain at least one point, an empty one fails with
    [InvalidArgument]; a single pass computes [maxLat, minLat, maxLng,
    minLng]; the result is northeast = [[maxLng, maxLat]], southwest =
    [[minLng, minLat]]. *)
Definition computeBounds (points : list GeoPoint) : Result BoundingBox :=
  match points with
  | [] => Throw InvalidArgument
  | p :: rest =>
      let e := fold_left extend rest
                 {| maxLat := lat p; minLat := lat p;
                    maxLng := lng p; minLng := lng p |} in
      Ok {| northeast := (maxLng e, maxLat e);
            southwest := (minLng e, minLat e) |}
  end.

(** The name under which [Map.js] imports it. *)
Definition findBounds : list GeoPoint -> Result BoundingBox := computeBounds.

(** [m] is the greatest (least) element of [xs]: one of its elements, and
    no element is above (below) it. *)
Definition is_max (xs : list Q) (m : Q) : Prop :=
  In m xs /\ Forall (fun x => x <= m) xs.
Definition is_min (xs : list Q) (m : Q) : Prop :=
  In m xs /\ Forall (fun x => m <= x) xs.

(** ** Constants of [Map.js] *)

Definition US_BOUNDS : BoundingBox :=
  {| northeast := (-61.08, 44.84); southwest := (-125, 33) |}.

Definition US_EU_BOUNDS : BoundingBox :=
  {| northeast := (32.1, 58.63); southwest := (-125, 33) |}.

Definition EU_CN_BOUNDS : BoundingBox :=
  {| northeast := (143.61, 62.2); southwest := (-14.10009, 23.898041) |}.

(** [{ top, left, right, bottom }] *)
Record PaddingBox : Type :=
  mkPadding { top : Z; left : Z; right : Z; bottom : Z }.

Definition MOBILE_PADDING : PaddingBox :=
  {| top := 10; left := 10; right := 10; bottom := 450 |}.
Definition DESKTOP_PADDING : PaddingBox :=
  {| top := 200; left := 600; right := 200; bottom := 200 |}.

(** The [padding] option is either such an object or one number for all
    four sides. *)
Inductive Padding : Type :=
| PerSide (p : PaddingBox)
| Uniform (n : Z).

(** [{ padding, animate }] *)
Record FitOptions : Type := mkFit { padding : Padding; animate : bool }.

(** ** PaddingResolver: the body of the [useMemo] at lines 121-126, a
    function of its three dependencies. *)
Definition fitBoundsOptions
  (isDesktopOrLaptop showInfoBox styleLoaded : bool) : FitOptions :=
  let animate := styleLoaded in
  if isDesktopOrLaptop then {| padding := PerSide DESKTOP_PADDING; animate := animate |}
  else if showInfoBox then {| padding := PerSide MOBILE_PADDING; animate := animate |}
  else {| padding := Uniform 10; animate := animate |}.

(** ** Values supplied by the hooks *)

(** An object with its identity.  React compares the dependencies of an
    effect with [Object.is], which on objects is identity of reference:
    [oid] stands for the reference, [deref] for the contents. *)
Record Ref (A : Type) : Type := mkRef { oid : nat; deref : A }.
Arguments mkRef {A} oid deref.
Arguments oid {A} r.
Arguments deref {A} r.

(** [Object.is] on two possibly undefined objects. *)
Definition same_ref {A : Type} (x y : option (Ref A)) : bool :=
  match x, y with
  | None, None => true
  | Some a, Some b => Nat.eqb (oid a) (oid b)
  | _, _ => false
  end.

(** [Object.is] on two possibly undefined timestamps. *)
Definition same_time (x y : option Z) : bool :=
  match x, y with
  | None, None => true
  | Some a, Some b => Z.eqb a b
  | _, _ => false
  end.

(** [currentPosition.coords] *)
Record Coords : Type := mkCoords { latitude : Q; longitude : Q }.

(** [currentPosition] of [useGeolocation] *)
Record Position : Type :=
  mkPosition { coords : option (Ref Coords); timestamp : option Z }.

(** A hotspot: [selectedHotspot] of [useSelectedHotspot], or the value
    [fetchHotspot] resolves to. *)
Module Hotspot.
Record t : Type := mk { lat : Q; lng : Q; witnesses : option (list GeoPoint) }.
End Hotspot.

(** The selected transaction: [selectedTxn.type] and [selectedTxn.path],
    whose elements carry [challengee] and [witnesses], each witness an
    encoded [location]. *)
Record PathWitness : Type := mkPathWitness { location : string }.

Record PathElement : Type :=
  mkPathElement { challengee : string; witnesses : list PathWitness }.

Record Txn : Type := mkTxn { type : string; path : list PathElement }.

(** A resolved witness [{ ...w, lat, lng }]. *)
Module Witness.
Record t : Type := mk { source : PathWitness; lat : Q; lng : Q }.
End Witness.

(** What the hooks return at one render. *)
Record Inputs : Type := mkInputs {
  isDesktopOrLaptop : bool;                    (* useMediaQuery *)
  showInfoBox : bool;                          (* useInfoBox *)
  selectedHotspot : option (Ref Hotspot.t);    (* useSelectedHotspot *)
  selectedTxn : option (Ref Txn);              (* useSelectedTxn *)
  currentPosition : Position                   (* useGeolocation *)
}.

(** A value of a feature property. *)
Inductive Value : Type :=
| VNum (q : Q)
| VStr (s : string).

(** A rendered feature: [geometry.coordinates] is the position
    [[lng, lat]], [properties] an object. *)
Record Feature : Type :=
  mkFeature { coordinates : Q * Q; properties : gmap string Value }.

(** ** State of the component *)

Record State : Type := mkState {
  styleLoaded : bool;                          (* useState(false) *)
  selectedTxnHotspot : option Hotspot.t;       (* useState() *)
  selectedTxnWitnesses : list Witness.t;       (* useState([]) *)
  bounds : BoundingBox;                        (* useState(default box) *)
  mapCurrent : bool;                           (* map.current is set *)
  inputs : Inputs;                             (* hook values of the last render *)
  txnDepsChanged : bool;
    (* the dependencies [selectedTxnHotspot, selectedTxnWitnesses] of the
       third effect changed since the last commit *)
  pending : list (Ref Txn);
    (* suspended runs of the async function, oldest first: the
       [selectedTxn] each closure captured *)
  selectCalls : list (option Value);           (* arguments of selectHotspot, oldest first *)
  cursor : string                              (* canvas style.cursor *)
}.

(** The state together with [fitBoundsOptions], as the [Mapbox] element
    receives them. *)
Definition fitOptions (st : State) : FitOptions :=
  fitBoundsOptions (isDesktopOrLaptop (inputs st)) (showInfoBox (inputs st))
    (styleLoaded st).

(** ** The monad of handlers and effects: state with exceptions.  A throw
    keeps the state reached so far. *)

Definition M (A : Type) : Type := State -> State * Result A.

Definition ret {A : Type} (a : A) : M A := fun st => (st, Ok a).
Definition throw {A : Type} (e : Exn) : M A := fun st => (st, Throw e).
Definition lift {A : Type} (r : Result A) : M A := fun st => (st, r).
Definition bind {A B : Type} (c : M A) (k : A -> M B) : M B :=
  fun st =>
    match c st with
    | (st', Ok a) => k a st'
    | (st', Throw e) => (st', Throw e)
    end.
Definition get : M State := fun st => (st, Ok st).
Definition modify (f : State -> State) : M unit := fun st => (f st, Ok tt).

(** A rejected promise of the async function: [useAsync] keeps the error,
    nothing is thrown into the component. *)
Definition catch (c : M unit) : M unit := fun st => (fst (c st), Ok tt).

Declare Scope comp_scope.
Delimit Scope comp_scope with comp.
Notation "x <- c ;; k" := (bind c (fun x => k))
  (at level 100, c at next level, k at level 200) : comp_scope.
Notation "c ;; k" := (bind c (fun _ => k))
  (at level 100, k at level 200) : comp_scope.
Open Scope comp_scope.

Definition when (b : bool) (c : M unit) : M unit := if b then c else ret tt.

(** The state setters. *)
Definition setStyledLoaded (v : bool) : M unit :=
  modify (fun st =>
    mkState v (selectedTxnHotspot st) (selectedTxnWitnesses st) (bounds st)
      (mapCurrent st) (inputs st) (txnDepsChanged st) (pending st)
      (selectCalls st) (cursor st)).

Definition setSelectedTxnHotspot (v : option Hotspot.t) : M unit :=
  modify (fun st =>
    mkState (styleLoaded st) v (selectedTxnWitnesses st) (bounds st)
      (mapCurrent st) (inputs st) (txnDepsChanged st) (pending st)
      (selectCalls st) (cursor st)).

(** Every call site passes a freshly built array ([[]] or the result of
    [map]), and the two setters of the transaction selection are only
    called together: the dependencies of the third effect change exactly
    here. *)
Definition setSelectedTxnWitnesses (v : list Witness.t) : M unit :=
  modify (fun st =>
    mkState (styleLoaded st) (selectedTxnHotspot st) v (bounds st)
      (mapCurrent st) (inputs st) true (pending st)
      (selectCalls st) (cursor st)).

Definition setBounds (v : BoundingBox) : M unit :=
  modify (fun st =>
    mkState (styleLoaded st) (selectedTxnHotspot st) (selectedTxnWitnesses st) v
      (mapCurrent st) (inputs st) (txnDepsChanged st) (pending st)
      (selectCalls st) (cursor st)).

Definition setMapCurrent : M unit :=
  modify (fun st =>
    mkState (styleLoaded st) (selectedTxnHotspot st) (selectedTxnWitnesses st)
      (bounds st) true (inputs st) (txnDepsChanged st) (pending st)
      (selectCalls st) (cursor st)).

Definition setInputs (v : Inputs) : M unit :=
  modify (fun st =>
    mkState (styleLoaded st) (selectedTxnHotspot st) (selectedTxnWitnesses st)
      (bounds st) (mapCurrent st) v (txnDepsChanged st) (pending st)
      (selectCalls st) (cursor st)).

Definition setTxnDepsChanged (v : bool) : M unit :=
  modify (fun st =>
    mkState (styleLoaded st) (selectedTxnHotspot st) (selectedTxnWitnesses st)
      (bounds st) (mapCurrent st) (inputs st) v (pending st)
      (selectCalls st) (cursor st)).

Definition setPending (v : list (Ref Txn)) : M unit :=
  modify (fun st =>
    mkState (styleLoaded st) (selectedTxnHotspot st) (selectedTxnWitnesses st)
      (bounds st) (mapCurrent st) (inputs st) (txnDepsChanged st) v
      (selectCalls st) (cursor st)).

(** [selectHotspot(address)] of [useSelectedHotspot]: the call is
    recorded, what the store does with it is outside the component. *)
Definition selectHotspot (address : option Value) : M unit :=
  modify (fun st =>
    mkState (styleLoaded st) (selectedTxnHotspot st) (selectedTxnWitnesses st)
      (bounds st) (mapCurrent st) (inputs st) (txnDepsChanged st) (pending st)
      (selectCalls st ++ [address]) (cursor st)).

Definition setCursor (v : string) : M unit :=
  modify (fun st =>
    mkState (styleLoaded st) (selectedTxnHotspot st) (selectedTxnWitnesses st)
      (bounds st) (mapCurrent st) (inputs st) (txnDepsChanged st) (pending st)
      (selectCalls st) v).

(** ** The bounds effects *)

(** Lines 66-76, dependencies [currentPosition.coords] and
    [currentPosition.timestamp]. *)
Definition effectCurrentPosition : M unit :=
  st <- get ;;
  match coords (currentPosition (inputs st)) with
  | None => ret tt
  | Some c =>
      b <- lift (findBounds
                   [ {| lng := longitude (deref c); lat := latitude (deref c) |} ]) ;;
      setBounds b
  end.

(** Lines 78-89, dependency [selectedHotspot]. *)
Definition effectSelectedHotspot : M unit :=
  st <- get ;;
  match selectedHotspot (inputs st) with
  | None => ret tt
  | Some r =>
      let h := deref r in
      selectionBounds <-
        lift (findBounds
                (map (fun w => {| lat := lat w; lng := lng w |})
                     (default [] (Hotspot.witnesses h))
                 ++ [ {| lat := Hotspot.lat h; lng := Hotspot.lng h |} ])) ;;
      setBounds selectionBounds
  end.

(** Lines 91-102, dependencies [selectedTxnHotspot] and
    [selectedTxnWitnesses].  The witnesses are always an array, which is
    truthy, so the guard only tests the hotspot. *)
Definition effectSelectedTxn : M unit :=
  st <- get ;;
  match selectedTxnHotspot st with
  | None => ret tt
  | Some h =>
      selectionBounds <-
        lift (findBounds
                (map (fun w => {| lat := Witness.lat w; lng := Witness.lng w |})
                     (selectedTxnWitnesses st)
                 ++ [ {| lat := Hotspot.lat h; lng := Hotspot.lng h |} ])) ;;
      setBounds selectionBounds
  end.

(** The commit that follows a change of state: the third effect runs when
    its dependencies changed. *)
Definition flushEffects : M unit :=
  st <- get ;;
  when (txnDepsChanged st) (setTxnDepsChanged false ;; effectSelectedTxn).

(** ** Pointer handlers *)

(** [features.map(({ geometry: { coordinates } }) =>
      ({ lat: coordinates[1], lng: coordinates[0] }))] *)
Definition featurePoint (f : Feature) : GeoPoint :=
  {| lat := snd (coordinates f); lng := fst (coordinates f) |}.

(** [{ lat: ..., lng: ..., ...feature.properties }]: the properties are
    spread last and win over [lat] and [lng]. *)
Definition clickedHotspot (feature : Feature) : gmap string Value :=
  properties feature ∪
    <[ "lat"%string := VNum (snd (coordinates feature)) ]>
      (<[ "lng"%string := VNum (fst (coordinates feature)) ]> ∅).

(** Lines 134-163; [features] is what [map.current.queryRenderedFeatures]
    returned for the click.  Before the style has loaded [map.current] is
    undefined and the call on it throws. *)
Definition handleHotspotClick (features : list Feature) : M unit :=
  st <- get ;;
  (if mapCurrent st then ret tt else throw TypeError) ;;
  match features with
  | [feature] =>
      let selectedHotspot := clickedHotspot feature in
      selectHotspot (selectedHotspot !! "address"%string)
  | _ =>
      selectionBounds <- lift (findBounds (map featurePoint features)) ;;
      setBounds selectionBounds
  end ;;
  setCursor "".

(** Lines 165-174; the handler is given the map itself. *)
Definition handleMouseMove (features : list Feature) : M unit :=
  if Nat.ltb 0 (length features) then setCursor "pointer" else setCursor "".

(** Lines 182-185. *)
Definition onStyleLoad : M unit :=
  setMapCurrent ;;
  setStyledLoaded true.

(** ** Events *)

(** What can happen to the mounted component. *)
Inductive Event : Type :=
| Render (next : Inputs)
    (* the hooks return [next] and the component renders again *)
| StyleLoad
    (* the map calls [onStyleLoad] *)
| HotspotClick (features : list Feature)
    (* a click, [queryRenderedFeatures] returning [features] *)
| MouseMove (features : list Feature)
| FetchSettled (k : nat) (r : Result (option Hotspot.t)).
    (* the promise of the [k]-th suspended [fetchHotspot] settles:
       fulfilled with a value, or rejected *)

(** [Array.prototype.map] with a callback that may throw: the first
    exception ends the whole map. *)
Fixpoint mapR {A B : Type} (f : A -> Result B) (l : list A) : Result (list B) :=
  match l with
  | [] => Ok []
  | a :: l' =>
      match f a with
      | Throw e => Throw e
      | Ok b =>
          match mapR f l' with
          | Throw e => Throw e
          | Ok bs => Ok (b :: bs)
          end
      end
  end.

(** ** Sample data, used to run the model on concrete inputs *)
Module Sample.

(** The point the stand-in decoder returns: a placeholder, no statement
    below depends on its coordinates. *)
Definition somewhere : Q * Q := (0, 0).

(** A stand-in for the decoder when the model is run.  [h3ToGeo] of
    h3-js 3 (the major version that exports the function under this
    name) validates nothing: it returns a point for every argument, a
    string that holds no index included, and never throws.  The
    stand-in is total in the same way.  The sample receipts below carry
    either no witness or locations that hold no index; which point is
    returned for those is immaterial to every statement. *)
Definition h3ToGeo (index : string) : option (Q * Q) := Some somewhere.

Definition noPosition : Position := {| coords := None; timestamp := None |}.

(** Two receipts that nobody witnessed. *)
Definition txnA : Ref Txn :=
  mkRef 1%nat
    {| type := "poc_receipts_v1";
       path := [ {| challengee := "hotspot-a"; witnesses := [] |} ] |}.

Definition txnB : Ref Txn :=
  mkRef 2%nat
    {| type := "poc_receipts_v1";
       path := [ {| challengee := "hotspot-b"; witnesses := [] |} ] |}.

(** The witness entries of [txnBad]: their locations hold no index. *)
Definition badWitnesses : list PathWitness :=
  [ {| location := "not-an-index" |}; {| location := "" |} ].

(** A receipt whose witnesses carry malformed locations. *)
Definition txnBad : Ref Txn :=
  mkRef 3%nat
    {| type := "poc_receipts_v1";
       path := [ {| challengee := "hotspot-a";
                    witnesses := badWitnesses |} ] |}.

(** What the stand-in decoder makes of them. *)
Definition badDecoded : list Witness.t :=
  map (fun w => Witness.mk w (fst somewhere) (snd somewhere)) badWitnesses.

Definition hotspotA : Hotspot.t := Hotspot.mk 37 (-121) None.
Definition hotspotB : Hotspot.t := Hotspot.mk 41 (-73) None.

Definition inputsOf (wide : bool) (txn : option (Ref Txn)) : Inputs :=
  {| isDesktopOrLaptop := wide; showInfoBox := false;
     selectedHotspot := None; selectedTxn := txn;
     currentPosition := noPosition |}.

Definition feature1 : Feature :=
  {| coordinates := (2, 1);
     properties := {[ "address"%string := VStr "hotspot-a" ]} |}.
Definition feature2 : Feature :=
  {| coordinates := (4, 3);
     properties := {[ "address"%string := VStr "hotspot-b" ]} |}.

End Sample.

(** ** More sample data: a location fix, selected hotspots, and
    transactions that start no resolution *)
Module Scenario.

Definition theFix : Ref Coords :=
  mkRef 10%nat {| latitude := 52; longitude := 13 |}.

(** A hotspot with two witnesses. *)
Definition witnessed : Ref Hotspot.t :=
  mkRef 20%nat
    (Hotspot.mk 48 2 (Some [ {| lat := 47; lng := 1 |};
                             {| lat := 49; lng := 3 |} ])).

(** A hotspot without a witness list. *)
Definition bare : Ref Hotspot.t := mkRef 21%nat (Hotspot.mk 48 2 None).

Definition payment : Ref Txn :=
  mkRef 4%nat {| type := "payment_v2"; path := [] |}.

Definition receiptWithoutPath : Ref Txn :=
  mkRef 5%nat {| type := "poc_receipts_v1"; path := [] |}.

Definition inputsWith (hotspot : option (Ref Hotspot.t))
  (txn : option (Ref Txn)) (position : Position) : Inputs :=
  {| isDesktopOrLaptop := true; showInfoBox := false;
     selectedHotspot := hotspot; selectedTxn := txn;
     currentPosition := position |}.

Definition located : Position :=
  {| coords := Some theFix; timestamp := Some 1%Z |}.

End Scenario.

Section Component.

(** [h3ToGeo] of h3-js: the point [[lat, lng]] it returns for a
    location.  [None] stands for an exception; the function [Map.js]
    imports raises none, it is total (the hypothesis of
    [resolution_never_aborts_on_a_witness]). *)
Variable h3ToGeo : string -> option (Q * Q).

(** [(w) => { const [lat, lng] = h3ToGeo(w.location);
              return { ...w, lat, lng } }] *)
Definition decodeWitness (w : PathWitness) : Result Witness.t :=
  match h3ToGeo (location w) with
  | Some (lat, lng) => Ok (Witness.mk w lat lng)
  | None => Throw DecodeError
  end.

(** The async function of lines 104-119, up to the [await].  In the
    receipt branch [fetchHotspot(target)] is called and the function is
    suspended; [selectedTxn.path[0]] of an empty path is undefined and
    reading [challengee] of it throws. *)
Definition resolveSelectedTxn : M unit :=
  st <- get ;;
  match selectedTxn (inputs st) with
  | Some txn =>
      if String.eqb (type (deref txn)) "poc_receipts_v1" then
        match path (deref txn) with
        | [] => throw TypeError
        | _ :: _ => setPending (pending st ++ [txn])
        end
      else (setSelectedTxnHotspot None ;; setSelectedTxnWitnesses [])
  | None => setSelectedTxnHotspot None ;; setSelectedTxnWitnesses []
  end.

(** The same function from the [await] on, with the [selectedTxn] its
    closure captured and the settled promise. *)
Definition resumeSelectedTxn (txn : Txn) (r : Result (option Hotspot.t))
  : M unit :=
  targetHotspot <- lift r ;;
  witnesses <-
    lift (match path txn with
          | [] => Throw TypeError
          | p0 :: _ => mapR decodeWitness (witnesses p0)
          end) ;;
  setSelectedTxnHotspot targetHotspot ;;
  setSelectedTxnWitnesses witnesses.

(** The [useState] initial values, at the first render. *)
Definition initialState (i : Inputs) : State :=
  {| styleLoaded := false;
     selectedTxnHotspot := None;
     selectedTxnWitnesses := [];
     bounds := if isDesktopOrLaptop i then US_EU_BOUNDS else US_BOUNDS;
     mapCurrent := false;
     inputs := i;
     txnDepsChanged := false;
     pending := [];
     selectCalls := [];
     cursor := "" |}.

(** After the first render every effect runs, in the order of the
    hooks; the render caused by the state they set follows. *)
Definition mountEffects : M unit :=
  effectCurrentPosition ;;
  effectSelectedHotspot ;;
  effectSelectedTxn ;;
  catch resolveSelectedTxn ;;
  flushEffects.

Definition mount (i : Inputs) : State := fst (mountEffects (initialState i)).

(** A later render: an effect runs when one of its dependencies is not
    [Object.is]-equal to its value at the previous render.  The effects
    run in the order of the hooks (the third between the second and the
    one of [useAsync]); when the async function sets state before it
    returns, the render that follows runs the third effect again. *)
Definition render (next : Inputs) : M unit :=
  st <- get ;;
  let prev := inputs st in
  setInputs next ;;
  when (negb (same_ref (coords (currentPosition prev))
                       (coords (currentPosition next))
              && same_time (timestamp (currentPosition prev))
                           (timestamp (currentPosition next))))
       effectCurrentPosition ;;
  when (negb (same_ref (selectedHotspot prev) (selectedHotspot next)))
       effectSelectedHotspot ;;
  flushEffects ;;
  when (negb (same_ref (selectedTxn prev) (selectedTxn next)))
       (catch resolveSelectedTxn) ;;
  flushEffects.

(** The continuation of the [k]-th suspended run; the state it sets
    causes a render, at which the third effect runs. *)
Definition settle (k : nat) (r : Result (option Hotspot.t)) : M unit :=
  st <- get ;;
  match pending st !! k with
  | None => ret tt
  | Some txn =>
      setPending (delete k (pending st)) ;;
      catch (resumeSelectedTxn (deref txn) r) ;;
      flushEffects
  end.

Definition dispatch (ev : Event) : M unit :=
  match ev with
  | Render next => render next
  | StyleLoad => onStyleLoad
  | HotspotClick features => handleHotspotClick features
  | MouseMove features => handleMouseMove features
  | FetchSettled k r => settle k r
  end.

(** One event; an exception that escapes a handler leaves the state it
    had reached. *)
Definition step (ev : Event) (st : State) : State := fst (dispatch ev st).

Definition run (evs : list Event) (st : State) : State :=
  fold_left (fun s ev => step ev s) evs st.

(** ** Vocabulary of the statements *)

(** No render is outstanding: the third effect has seen the current
    transaction selection.  Every state between two events is such a
    state ([run_committed]). *)
Definition committed (st : State) : Prop := txnDepsChanged st = false.

(** The hook values [i] with another device class and overlay
    visibility, every selection source as it was. *)
Definition withContext (wide overlay : bool) (i : Inputs) : Inputs :=
  {| isDesktopOrLaptop := wide;
     showInfoBox := overlay;
     selectedHotspot := selectedHotspot i;
     selectedTxn := selectedTxn i;
     currentPosition := currentPosition i |}.

(** No selection source has anything to offer: no location fix, no
    selected hotspot, no selected receipt. *)
Definition no_source (i : Inputs) : Prop :=
  coords (currentPosition i) = None /\
  selectedHotspot i = None /\
  match selectedTxn i with
  | Some txn => String.eqb (type (deref txn)) "poc_receipts_v1" = false
  | None => True
  end.

(** An event at which no selection source fires. *)
Definition no_source_fires (ev : Event) : Prop :=
  match ev with
  | Render next => no_source next
  | HotspotClick _ => False
  | StyleLoad | MouseMove _ | FetchSettled _ _ => True
  end.

(** The default box of a device class. *)
Definition defaultBounds (wide : bool) : BoundingBox :=
  if wide then US_EU_BOUNDS else US_BOUNDS.

(** The point-set of the third effect. *)
Definition txnSelectionPoints (h : Hotspot.t) (ws : list Witness.t)
  : list GeoPoint :=
  map (fun w => {| lat := Witness.lat w; lng := Witness.lng w |}) ws
  ++ [ {| lat := Hotspot.lat h; lng := Hotspot.lng h |} ].

(** Settling the [k]-th suspended resolution with [r] leaves the
    transaction selection and the bounds as they are. *)
Definition discarded (st : State) (k : nat) (r : Result (option Hotspot.t))
  : Prop :=
  let st' := step (FetchSettled k r) st in
  selectedTxnHotspot st' = selectedTxnHotspot st /\
  selectedTxnWitnesses st' = selectedTxnWitnesses st /\
  bounds st' = bounds st.

(** The state of a session in which no source has fired yet. *)
Definition at_default (wide : bool) (st : State) : Prop :=
  bounds st = defaultBounds wide /\
  selectedTxnHotspot st = None /\
  pending st = [] /\
  committed st.

(** The rendering surface has signalled readiness. *)
Definition loaded (st : State) : Prop := styleLoaded st = true.

(** The loop invariant of the single pass: after the points [seen] the
    accumulator holds their four extremes. *)
Definition extremes_of (seen : list GeoPoint) (e : Extremes) : Prop :=
  is_max (map lat seen) (maxLat e) /\ is_min (map lat seen) (minLat e) /\
  is_max (map lng seen) (maxLng e) /\ is_min (map lng seen) (minLng e).

(** [c] keeps [P], also when it throws. *)
Definition preserves {A : Type} (P : State -> Prop) (c : M A) : Prop :=
  forall st, P st -> P (fst (c st)).

(** ** The detail layer and further vocabulary *)

(** [selectedTxn?.type === 'poc_receipts_v1'] *)
Definition isReceipt (txn : option (Ref Txn)) : bool :=
  match txn with
  | Some t => String.eqb (type (deref t)) "poc_receipts_v1"
  | None => false
  end.

(** The point-set of the second effect. *)
Definition hotspotPoints (h : Hotspot.t) : list GeoPoint :=
  map (fun w => {| lat := lat w; lng := lng w |})
      (default [] (Hotspot.witnesses h))
  ++ [ {| lat := Hotspot.lat h; lng := Hotspot.lng h |} ].

(** The zero-area box at a location fix. *)
Definition fixBox (c : Coords) : BoundingBox :=
  {| northeast := (longitude c, latitude c);
     southwest := (longitude c, latitude c) |}.

(** The dependencies of the first effect are [Object.is]-equal. *)
Definition samePosition (prev next : Inputs) : bool :=
  same_ref (coords (currentPosition prev)) (coords (currentPosition next))
  && same_time (timestamp (currentPosition prev))
               (timestamp (currentPosition next)).

(** [p] lies in the box [b]. *)
Definition inside (b : BoundingBox) (p : GeoPoint) : Prop :=
  (fst (southwest b) <= lng p /\ lng p <= fst (northeast b)) /\
  (snd (southwest b) <= lat p /\ lat p <= snd (northeast b)).

(** Line 196: [hotspot={selectedHotspot || selectedTxnHotspot}]. *)
Definition detailHotspot (st : State) : option Hotspot.t :=
  match selectedHotspot (inputs st) with
  | Some r => Some (deref r)
  | None => selectedTxnHotspot st
  end.

(** The witnesses handed to the detail layer come from one of two
    arrays. *)
Inductive DetailWitnesses : Type :=
| OfHotspot (ws : list GeoPoint)
| OfTxn (ws : list Witness.t).

(** Line 197: [witnesses={selectedHotspot?.witnesses ||
    selectedTxnWitnesses || []}].  An array is truthy also when it is
    empty; [selectedTxnWitnesses] is always an array, so the last
    alternative is never taken. *)
Definition detailWitnesses (st : State) : DetailWitnesses :=
  match selectedHotspot (inputs st) with
  | Some r =>
      match Hotspot.witnesses (deref r) with
      | Some ws => OfHotspot ws
      | None => OfTxn (selectedTxnWitnesses st)
      end
  | None => OfTxn (selectedTxnWitnesses st)
  end.

(** A suspended resolution can be resumed: it is for a receipt whose
    path has a first element. *)
Definition resumable (txn : Ref Txn) : Prop :=
  isReceipt (Some txn) = true /\ path (deref txn) <> [].

(** [map.current] is set exactly when the style has loaded. *)
Definition map_follows_style (st : State) : Prop :=
  mapCurrent st = styleLoaded st.

(** The event is a click on exactly one feature. *)
Definition single_click (ev : Event) : bool :=
  match ev with
  | HotspotClick [_] => true
  | _ => false
  end.

(** The event is the style-load signal. *)
Definition is_style_load (ev : Event) : bool :=
  match ev with
  | StyleLoad => true
  | _ => false
  end.

(** ** Theorems *)

Lemma Ok_inj {A : Type} (a b : A) : Ok a = Ok b -> a = b.
Proof. intros H. now injection H. Qed.

Lemma Qmax_cases (a b : Q) : Qmax a b = a \/ Qmax a b = b.
Proof.
  unfold Qmax, GenericMinMax.gmax. destruct (a ?= b); auto.
Qed.

Lemma Qmin_cases (a b : Q) : Qmin a b = a \/ Qmin a b = b.
Proof.
  unfold Qmin, GenericMinMax.gmin. destruct (a ?= b); auto.
Qed.

Lemma is_max_snoc (xs : list Q) (m x : Q) :
  is_max xs m -> is_max (xs ++ [x]) (Qmax m x).
Proof.
  intros [Hin Hall]. split.
  - apply in_or_app. destruct (Qmax_cases m x) as [-> | ->].
    + now left.
    + right. now left.
  - apply Forall_app. split.
    + eapply Forall_impl; [exact Hall |]. cbn. intros y Hy.
      eapply Qle_trans; [exact Hy | apply Q.le_max_l].
    + constructor; [apply Q.le_max_r | constructor].
Qed.

Lemma is_min_snoc (xs : list Q) (m x : Q) :
  is_min xs m -> is_min (xs ++ [x]) (Qmin m x).
Proof.
  intros [Hin Hall]. split.
  - apply in_or_app. destruct (Qmin_cases m x) as [-> | ->].
    + now left.
    + right. now left.
  - apply Forall_app. split.
    + eapply Forall_impl; [exact Hall |]. cbn. intros y Hy.
      eapply Qle_trans; [apply Q.le_min_l | exact Hy].
    + constructor; [apply Q.le_min_r | constructor].
Qed.

Lemma extend_extremes (seen : list GeoPoint) (e : Extremes) (p : GeoPoint) :
  extremes_of seen e -> extremes_of (seen ++ [p]) (extend e p).
Proof.
  intros (H1 & H2 & H3 & H4). unfold extremes_of, extend; cbn.
  rewrite !map_app; cbn.
  repeat split; first [now apply is_max_snoc | now apply is_min_snoc].
Qed.

Lemma fold_extend_extremes (rest seen : list GeoPoint) (e : Extremes) :
  extremes_of seen e ->
  extremes_of (seen ++ rest) (fold_left extend rest e).
Proof.
  revert seen e. induction rest as [| p rest IH]; intros seen e He; cbn.
  - now rewrite app_nil_r.
  - replace (seen ++ p :: rest) with ((seen ++ [p]) ++ rest)
      by now rewrite <- app_assoc.
    apply IH. now apply extend_extremes.
Qed.

Lemma extremes_single (p : GeoPoint) :
  extremes_of [p] {| maxLat := lat p; minLat := lat p;
                     maxLng := lng p; minLng := lng p |}.
Proof.
  repeat split; cbn; try (now left);
    repeat constructor; apply Qle_refl.
Qed.

(** C1.  For every non-empty point-set the bounds computation returns a
    box: its northeast corner is [[max lng, max lat]] and its southwest
    corner is [[min lng, min lat]] over all input points; for a
    single-point input northeast and southwest coincide. *)
Theorem computeBounds_extremes (points : list GeoPoint) :
  points <> [] ->
  exists b : BoundingBox,
    findBounds points = Ok b /\
    is_max (map lng points) (fst (northeast b)) /\
    is_max (map lat points) (snd (northeast b)) /\
    is_min (map lng points) (fst (southwest b)) /\
    is_min (map lat points) (snd (southwest b)) /\
    (forall p, points = [p] ->
       northeast b = (lng p, lat p) /\ northeast b = southwest b).
Proof.
  destruct points as [| p rest]; [congruence |]. intros _.
  eexists. split; [reflexivity |]. cbn.
  destruct (fold_extend_extremes rest [p] _ (extremes_single p))
    as (H1 & H2 & H3 & H4).
  split; [exact H3 |]. split; [exact H1 |].
  split; [exact H4 |]. split; [exact H2 |].
  intros q Hq. injection Hq as -> ->. cbn. split; reflexivity.
Qed.

(** *** The padding and animation policy *)

Lemma fitBoundsOptions_animate (wide overlay ready : bool) :
  animate (fitBoundsOptions wide overlay ready) = ready.
Proof. destruct wide, overlay; reflexivity. Qed.

(** C4.  With [mapReady = false] the resolved fit options have
    [animate = false] whatever the viewport class and the overlay
    visibility are, and with [mapReady = true] they have
    [animate = true]. *)
Theorem animate_follows_mapReady (isWideViewport overlayVisible : bool) :
  animate (fitBoundsOptions isWideViewport overlayVisible false) = false /\
  animate (fitBoundsOptions isWideViewport overlayVisible true) = true.
Proof. destruct isWideViewport, overlayVisible; split; reflexivity. Qed.

(** C5.  The padding rules are tried in a fixed order and the first
    that matches wins: a wide viewport gets the desktop padding, whose
    left side is the largest; otherwise a narrow viewport with a
    visible overlay gets the bottom-biased padding; otherwise the
    padding is small and uniform.  With a wide viewport and a visible
    overlay the desktop padding wins. *)
Theorem padding_first_match_wins (mapReady : bool) :
  (forall overlayVisible,
      padding (fitBoundsOptions true overlayVisible mapReady)
      = PerSide DESKTOP_PADDING) /\
  padding (fitBoundsOptions false true mapReady) = PerSide MOBILE_PADDING /\
  padding (fitBoundsOptions false false mapReady) = Uniform 10 /\
  padding (fitBoundsOptions true true mapReady) <> PerSide MOBILE_PADDING /\
  (top DESKTOP_PADDING < left DESKTOP_PADDING /\
   right DESKTOP_PADDING < left DESKTOP_PADDING /\
   bottom DESKTOP_PADDING < left DESKTOP_PADDING)%Z /\
  (top MOBILE_PADDING < bottom MOBILE_PADDING /\
   left MOBILE_PADDING < bottom MOBILE_PADDING /\
   right MOBILE_PADDING < bottom MOBILE_PADDING)%Z.
Proof.
  split; [intros []; reflexivity |].
  do 2 (split; [reflexivity |]).
  split; [cbn; discriminate |].
  cbn. lia.
Qed.

(** *** The click handler *)

(** The spread of the properties leaves their [address] as it is. *)
Lemma clickedHotspot_address (feature : Feature) :
  clickedHotspot feature !! "address"%string
  = properties feature !! "address"%string.
Proof.
  unfold clickedHotspot.
  destruct (properties feature !! "address"%string) as [v |] eqn:E.
  - now apply lookup_union_Some_l.
  - apply lookup_union_None. split; [exact E |].
    rewrite !lookup_insert_ne by discriminate. apply lookup_empty.
Qed.

(** C3.  A click that hits no feature takes the [else] branch of the
    handler: [findBounds] is called on the empty point-set and its
    [InvalidArgument] escapes the handler, before [setBounds] and
    before the cursor is reset. *)
Theorem click_on_nothing_calls_findBounds (st : State) :
  mapCurrent st = true ->
  handleHotspotClick [] st = (st, Throw InvalidArgument).
Proof.
  intros Hmap. unfold handleHotspotClick, bind, get. rewrite Hmap.
  reflexivity.
Qed.

(** C6.  A click on exactly one feature calls [selectHotspot] once,
    with the [address] of that feature, and leaves the bounds alone; a
    click on more features sets the bounds to the box of the
    coordinates of all of them, taken as they are, and selects
    nothing.  Two hits at (lat 1, lng 2) and (lat 3, lng 4) give
    northeast = [[4, 3]] and southwest = [[2, 1]]. *)
Theorem click_disambiguation (st : State) :
  mapCurrent st = true ->
  (forall feature,
      let st' := step (HotspotClick [feature]) st in
      snd (handleHotspotClick [feature] st) = Ok tt /\
      selectCalls st' = selectCalls st ++ [properties feature !! "address"%string] /\
      bounds st' = bounds st) /\
  (forall f g rest,
      let features := f :: g :: rest in
      let st' := step (HotspotClick features) st in
      snd (handleHotspotClick features st) = Ok tt /\
      findBounds (map featurePoint features) = Ok (bounds st') /\
      length (map featurePoint features) = length features /\
      selectCalls st' = selectCalls st) /\
  (forall props1 props2,
      bounds (step (HotspotClick [ {| coordinates := (2, 1); properties := props1 |};
                                   {| coordinates := (4, 3); properties := props2 |} ]) st)
      = {| northeast := (4, 3); southwest := (2, 1) |}).
Proof.
  intros Hmap. split; [| split].
  - intros feature. unfold step, dispatch, handleHotspotClick, bind, get.
    rewrite Hmap. cbn. rewrite clickedHotspot_address. auto.
  - intros f g rest. unfold step, dispatch, handleHotspotClick, bind, get.
    rewrite Hmap. cbn. rewrite length_map. auto.
  - intros props1 props2. unfold step, dispatch, handleHotspotClick, bind, get.
    rewrite Hmap. reflexivity.
Qed.

(** *** Renders *)

#[local] Arguments String.eqb : simpl never.

Lemma same_ref_refl {A : Type} (x : option (Ref A)) : same_ref x x = true.
Proof. destruct x; cbn; [apply Nat.eqb_refl | reflexivity]. Qed.

Lemma same_time_refl (x : option Z) : same_time x x = true.
Proof. destruct x; cbn; [apply Z.eqb_refl | reflexivity]. Qed.

(** The point-sets the effects build end with the focal point, so the
    bounds computation never fails on them. *)
Lemma findBounds_snoc (ps : list GeoPoint) (p : GeoPoint) :
  exists b, findBounds (ps ++ [p]) = Ok b.
Proof. destruct ps; cbn; eauto. Qed.

(** C8.  A change of the fit context alone (device class, overlay
    visibility, or the surface-ready signal) recomputes the fit options
    and leaves the bounds as they were. *)
Theorem context_change_keeps_bounds (st : State) (wide overlay : bool) :
  committed st ->
  let st1 := step (Render (withContext wide overlay (inputs st))) st in
  let st2 := step StyleLoad st in
  bounds st1 = bounds st /\
  fitOptions st1 = fitBoundsOptions wide overlay (styleLoaded st) /\
  bounds st2 = bounds st /\
  fitOptions st2 = fitBoundsOptions (isDesktopOrLaptop (inputs st))
                                    (showInfoBox (inputs st)) true.
Proof.
  unfold committed. destruct st as [sl h ws b mc i dirty pend calls cur].
  cbn. intros ->.
  unfold step, dispatch, render, bind, get, fitOptions. cbn.
  rewrite !same_ref_refl, same_time_refl. cbn. auto.
Qed.

(** *** Every state between two events is committed *)

(** Case analysis on the innermost scrutinee the goal is stuck on. *)
Ltac split_matches :=
  repeat match goal with
         | |- context [match ?x with _ => _ end] =>
             lazymatch x with
             | context [match _ with _ => _ end] => fail
             | _ => destruct x eqn:?; cbn
             end
         end.

Lemma flushEffects_committed (st : State) : committed (fst (flushEffects st)).
Proof.
  destruct st as [sl h ws b mc i dirty pend calls cur].
  unfold committed, flushEffects, effectSelectedTxn, bind, get. cbn.
  destruct dirty; cbn; [| reflexivity].
  split_matches; reflexivity.
Qed.

Lemma mount_committed (i : Inputs) : committed (mount i).
Proof.
  unfold committed, mount, mountEffects, initialState.
  unfold effectCurrentPosition, effectSelectedHotspot, effectSelectedTxn,
    resolveSelectedTxn, flushEffects, catch, bind, get. cbn.
  split_matches; reflexivity.
Qed.

Lemma step_committed (ev : Event) (st : State) :
  committed st -> committed (step ev st).
Proof.
  unfold committed. destruct st as [sl h ws b mc i dirty pend calls cur].
  cbn. intros ->. destruct ev as [next | | features | features | k r].
  - unfold step, dispatch, render.
    unfold effectCurrentPosition, effectSelectedHotspot, effectSelectedTxn,
      resolveSelectedTxn, flushEffects, catch, when, bind, get. cbn.
    split_matches; reflexivity.
  - reflexivity.
  - unfold step, dispatch, handleHotspotClick, bind, get. cbn.
    split_matches; reflexivity.
  - unfold step, dispatch, handleMouseMove. cbn.
    split_matches; reflexivity.
  - unfold step, dispatch, settle, resumeSelectedTxn.
    unfold effectSelectedTxn, flushEffects, catch, when, bind, get. cbn.
    split_matches; reflexivity.
Qed.

Lemma run_committed (evs : list Event) (st : State) :
  committed st -> committed (run evs st).
Proof.
  revert st. induction evs as [| ev evs IH]; intros st Hst; cbn.
  - exact Hst.
  - apply IH. now apply step_committed.
Qed.

(** *** The render path does not throw

    The point-sets of the three effects are never empty, and a rejected
    resolution is kept by [useAsync]: only the click handler can end
    with an exception. *)

Ltac snoc_never_fails :=
  match goal with
  | H : findBounds (?ps ++ [?p]) = Throw _ |- _ =>
      destruct (findBounds_snoc ps p) as [? ?]; congruence
  end.

Lemma mountEffects_returns (i : Inputs) :
  snd (mountEffects (initialState i)) = Ok tt.
Proof.
  unfold mountEffects, initialState.
  unfold effectCurrentPosition, effectSelectedHotspot, effectSelectedTxn,
    resolveSelectedTxn, flushEffects, catch, when, bind, get. cbn.
  split_matches; try reflexivity; snoc_never_fails.
Qed.

Lemma dispatch_returns (ev : Event) (st : State) :
  match ev with HotspotClick _ => False | _ => True end ->
  snd (dispatch ev st) = Ok tt.
Proof.
  destruct st as [sl h ws b mc i dirty pend calls cur].
  destruct ev as [next | | features | features | k r]; intros Hev.
  - unfold dispatch, render.
    unfold effectCurrentPosition, effectSelectedHotspot, effectSelectedTxn,
      resolveSelectedTxn, flushEffects, catch, when, bind, get. cbn.
    split_matches; try reflexivity; snoc_never_fails.
  - reflexivity.
  - contradiction.
  - unfold dispatch, handleMouseMove. cbn. split_matches; reflexivity.
  - unfold dispatch, settle, resumeSelectedTxn.
    unfold effectSelectedTxn, flushEffects, catch, when, bind, get. cbn.
    split_matches; try reflexivity; snoc_never_fails.
Qed.

(** *** The default region *)

Lemma mount_at_default (i : Inputs) :
  no_source i -> at_default (isDesktopOrLaptop i) (mount i).
Proof.
  destruct i as [wide overlay sh stx [co ts]].
  unfold no_source; cbn. intros (-> & -> & Htxn).
  unfold at_default, committed, mount, mountEffects, initialState.
  unfold effectCurrentPosition, effectSelectedHotspot, effectSelectedTxn,
    resolveSelectedTxn, flushEffects, catch, when, bind, get. cbn.
  destruct stx as [txn |]. 2: cbn; auto.
  rewrite Htxn; cbn; auto.
Qed.

Lemma step_at_default (wide : bool) (ev : Event) (st : State) :
  no_source_fires ev -> at_default wide st -> at_default wide (step ev st).
Proof.
  destruct st as [sl h ws b mc i dirty pend calls cur].
  unfold at_default, committed; cbn. intros Hev (-> & -> & -> & ->).
  destruct ev as [next | | features | features | k r]; cbn in Hev.
  - destruct next as [wide' overlay sh stx [co ts]].
    destruct Hev as (Hco & Hsh & Htxn); cbn in Hco, Hsh, Htxn. subst co sh.
    unfold step, dispatch, render.
    unfold effectCurrentPosition, effectSelectedHotspot, effectSelectedTxn,
      resolveSelectedTxn, flushEffects, catch, when, bind, get. cbn.
    destruct stx as [txn |]; cbn; split_matches; auto; congruence.
  - cbn. auto.
  - contradiction.
  - unfold step, dispatch, handleMouseMove. cbn. split_matches; auto.
  - unfold step, dispatch, settle, bind, get. cbn.
    rewrite lookup_nil. cbn. auto.
Qed.

(** C7.  As long as no selection source has fired, the bounds are the
    default box of the device class the component started with: the
    wide-viewport box on a desktop-class device, the narrow-viewport
    box otherwise.  Later renders, whatever device class they report,
    do not revisit the choice. *)
Theorem default_bounds_at_startup (i0 : Inputs) (evs : list Event) :
  no_source i0 ->
  Forall no_source_fires evs ->
  bounds (initialState i0)
  = (if isDesktopOrLaptop i0 then US_EU_BOUNDS else US_BOUNDS) /\
  bounds (run evs (mount i0))
  = (if isDesktopOrLaptop i0 then US_EU_BOUNDS else US_BOUNDS).
Proof.
  intros Hi0 Hevs. split; [reflexivity |].
  assert (Hinv : at_default (isDesktopOrLaptop i0) (run evs (mount i0))).
  { generalize (mount_at_default i0 Hi0).
    generalize (mount i0) as st.
    induction Hevs as [| ev evs Hev _ IH]; intros st Hst; cbn.
    - exact Hst.
    - apply IH. now apply step_at_default. }
  destruct Hinv as [Hb _]. exact Hb.
Qed.

(** *** Resolution of the selected transaction *)

(** C2, as the code has it.  A suspended resolution whose fetch is
    fulfilled and whose witnesses decode applies its result, whatever
    transaction is selected by then: the hotspot becomes the fetched
    value and the witnesses those of this resolution; the bounds are
    recomputed from the two when a hotspot was fetched, and stay as
    they are when the fetched value is undefined. *)
Theorem settled_result_is_applied
  (st : State) (k : nat) (txn : Ref Txn) (p0 : PathElement)
  (rest : list PathElement) (target : option Hotspot.t)
  (ws : list Witness.t) :
  committed st ->
  pending st !! k = Some txn ->
  path (deref txn) = p0 :: rest ->
  mapR decodeWitness (witnesses p0) = Ok ws ->
  let st' := step (FetchSettled k (Ok target)) st in
  selectedTxnHotspot st' = target /\
  selectedTxnWitnesses st' = ws /\
  match target with
  | Some h => findBounds (txnSelectionPoints h ws) = Ok (bounds st')
  | None => bounds st' = bounds st
  end.
Proof.
  intros Hc Hk Hpath Hws.
  unfold step, dispatch, settle, bind, get. rewrite Hk.
  unfold catch, resumeSelectedTxn, flushEffects, effectSelectedTxn, when,
    bind, get, lift. rewrite Hpath, Hws.
  destruct target as [h |]; cbn.
  - fold (txnSelectionPoints h ws).
    destruct (findBounds_snoc
                (map (fun w => {| lat := Witness.lat w; lng := Witness.lng w |}) ws)
                {| lat := Hotspot.lat h; lng := Hotspot.lng h |}) as [b Hb].
    fold (txnSelectionPoints h ws) in Hb. rewrite Hb. cbn. auto.
  - auto.
Qed.

(** *** The surface-ready flag *)

Lemma preserves_ret {A : Type} (P : State -> Prop) (a : A) : preserves P (ret a).
Proof. intros st H; exact H. Qed.

Lemma preserves_throw {A : Type} (P : State -> Prop) (e : Exn) :
  preserves P (@throw A e).
Proof. intros st H; exact H. Qed.

Lemma preserves_lift {A : Type} (P : State -> Prop) (r : Result A) :
  preserves P (lift r).
Proof. intros st H; exact H. Qed.

Lemma preserves_get (P : State -> Prop) : preserves P get.
Proof. intros st H; exact H. Qed.

Lemma preserves_modify (P : State -> Prop) (f : State -> State) :
  (forall st, P st -> P (f st)) -> preserves P (modify f).
Proof. intros Hf st H. now apply Hf. Qed.

Lemma preserves_bind {A B : Type} (P : State -> Prop) (c : M A) (k : A -> M B) :
  preserves P c -> (forall a, preserves P (k a)) -> preserves P (bind c k).
Proof.
  intros Hc Hk st H. unfold bind. specialize (Hc st H).
  destruct (c st) as [st' [a | e]]; cbn in *.
  - now apply Hk.
  - exact Hc.
Qed.

Lemma preserves_catch (P : State -> Prop) (c : M unit) :
  preserves P c -> preserves P (catch c).
Proof. intros Hc st H. now apply Hc. Qed.

Lemma preserves_when (P : State -> Prop) (b : bool) (c : M unit) :
  preserves P c -> preserves P (when b c).
Proof. intros Hc. destruct b; [exact Hc | apply preserves_ret]. Qed.

(** One step of a frame proof: descend into the program, case by case. *)
Ltac frame_step :=
  lazymatch goal with
  | |- preserves _ (bind _ _) => apply preserves_bind; [| intros ?]
  | |- preserves _ (ret _) => apply preserves_ret
  | |- preserves _ (throw _) => apply preserves_throw
  | |- preserves _ (lift _) => apply preserves_lift
  | |- preserves _ get => apply preserves_get
  | |- preserves _ (catch _) => apply preserves_catch
  | |- preserves _ (when _ _) => apply preserves_when
  | |- preserves _ (modify _) =>
      apply preserves_modify; intros ? ?; assumption
  | |- preserves _ (match ?x with _ => _ end) => destruct x
  end.

Lemma dispatch_keeps_loaded (ev : Event) : preserves loaded (dispatch ev).
Proof.
  destruct ev as [next | | features | features | k r]; cbn.
  - unfold render, flushEffects, effectCurrentPosition, effectSelectedHotspot,
      effectSelectedTxn, resolveSelectedTxn, setInputs, setBounds,
      setTxnDepsChanged, setPending, setSelectedTxnHotspot,
      setSelectedTxnWitnesses.
    repeat frame_step.
  - intros st _. reflexivity.
  - unfold handleHotspotClick, selectHotspot, setBounds, setCursor.
    repeat frame_step.
  - unfold handleMouseMove, setCursor. repeat frame_step.
  - unfold settle, resumeSelectedTxn, flushEffects, effectSelectedTxn,
      setBounds, setTxnDepsChanged, setPending, setSelectedTxnHotspot,
      setSelectedTxnWitnesses.
    repeat frame_step.
Qed.

Lemma run_keeps_loaded (evs : list Event) (st : State) :
  loaded st -> loaded (run evs st).
Proof.
  revert st. induction evs as [| ev evs IH]; intros st Hst; cbn.
  - exact Hst.
  - apply IH. now apply dispatch_keeps_loaded.
Qed.

(** C10.  The surface-ready flag only ever goes up: once the surface
    has signalled readiness, the flag stays set through every later
    event, and the fit options computed in every later state
    animate. *)
Theorem styleLoaded_is_monotone (st : State) (evs : list Event) :
  let st' := run evs (step StyleLoad st) in
  styleLoaded (step StyleLoad st) = true /\
  styleLoaded st' = true /\
  animate (fitOptions st') = true.
Proof.
  cbn zeta.
  assert (H0 : loaded (step StyleLoad st)) by reflexivity.
  pose proof (run_keeps_loaded evs _ H0) as H.
  split; [exact H0 |]. split; [exact H |].
  unfold fitOptions. rewrite fitBoundsOptions_animate. exact H.
Qed.

(** *** Which source moves the map at a render *)

#[local] Arguments findBounds : simpl never.

(** The bounds computation of an effect cannot have failed. *)
Ltac effect_never_fails :=
  match goal with
  | H : findBounds [_] = Throw _ |- _ =>
      unfold findBounds, computeBounds in H; discriminate H
  | H : findBounds (?ps ++ [?p]) = Throw _ |- _ =>
      destruct (findBounds_snoc ps p) as [? ?]; congruence
  end.

Lemma findBounds_encloses (pts : list GeoPoint) (b : BoundingBox) :
  findBounds pts = Ok b -> Forall (inside b) pts.
Proof.
  destruct pts as [| p rest]; [discriminate |].
  unfold findBounds, computeBounds. intros H. injection H as <-.
  destruct (fold_extend_extremes rest [p] _ (extremes_single p))
    as ([_ H1] & [_ H2] & [_ H3] & [_ H4]).
  change ([p] ++ rest) with (p :: rest) in *.
  rewrite Forall_fmap in H1, H2, H3, H4.
  rewrite Forall_forall in *. intros q Hq. unfold inside; cbn.
  specialize (H1 q Hq). specialize (H2 q Hq).
  specialize (H3 q Hq). specialize (H4 q Hq). cbn in *. auto.
Qed.

(** X1.  A render at which the selected hotspot changed to a present
    one sets the bounds to the box of its witnesses and itself,
    whatever else changed at that render: the hotspot effect runs after
    the location effect, and the transaction selection sets no
    bounds there.  The box holds the hotspot and each of its
    witnesses. *)
Theorem selected_hotspot_sets_bounds
  (st : State) (next : Inputs) (r : Ref Hotspot.t) :
  committed st ->
  same_ref (selectedHotspot (inputs st)) (selectedHotspot next) = false ->
  selectedHotspot next = Some r ->
  let st' := step (Render next) st in
  findBounds (hotspotPoints (deref r)) = Ok (bounds st') /\
  inside (bounds st')
         {| lat := Hotspot.lat (deref r); lng := Hotspot.lng (deref r) |} /\
  Forall (inside (bounds st')) (default [] (Hotspot.witnesses (deref r))).
Proof.
  intros Hc Hsh Hnext. cbn zeta.
  assert (Hb : findBounds (hotspotPoints (deref r))
               = Ok (bounds (step (Render next) st))).
  { revert Hc Hsh Hnext. unfold committed.
    destruct st as [sl h ws b mc i dirty pend calls cur].
    destruct next as [wide overlay sh stx pos]. cbn. intros -> Hsh ->.
    destruct (findBounds_snoc
                (map (fun w => {| lat := lat w; lng := lng w |})
                     (default [] (Hotspot.witnesses (deref r))))
                {| lat := Hotspot.lat (deref r); lng := Hotspot.lng (deref r) |})
      as [box Hbox].
    unfold hotspotPoints. rewrite Hbox. f_equal.
    unfold step, dispatch, render.
    unfold effectCurrentPosition, effectSelectedHotspot, effectSelectedTxn,
      resolveSelectedTxn, flushEffects, catch, when, bind, get. cbn.
    rewrite Hsh. cbn.
    split_matches; cbn; rewrite ?Hbox; cbn; split_matches;
      try reflexivity; try congruence; effect_never_fails. }
  split; [exact Hb |].
  apply findBounds_encloses in Hb. unfold hotspotPoints in Hb.
  apply Forall_app in Hb as [Hws Hh].
  split; [now inversion Hh |].
  rewrite Forall_fmap in Hws. eapply Forall_impl; [exact Hws |].
  cbn. intros [la lo] Hw. exact Hw.
Qed.

(** Every case of a run of effects, the impossible ones closed. *)
Ltac all_cases :=
  split_matches; auto; try congruence; try effect_never_fails.

Lemma findBounds_single (p : GeoPoint) :
  findBounds [p]
  = Ok {| northeast := (lng p, lat p); southwest := (lng p, lat p) |}.
Proof. reflexivity. Qed.

(** X2.  A location fix (a new [coords] object, or the same one with a
    new timestamp) at a render that brings no new selected hotspot
    replaces the bounds by the zero-area box at the fix. *)
Theorem location_fix_recentres
  (st : State) (next : Inputs) (c : Ref Coords) :
  committed st ->
  samePosition (inputs st) next = false ->
  coords (currentPosition next) = Some c ->
  same_ref (selectedHotspot (inputs st)) (selectedHotspot next) = true
  \/ selectedHotspot next = None ->
  bounds (step (Render next) st) = fixBox (deref c).
Proof.
  unfold committed, samePosition.
  destruct st as [sl h ws b mc i dirty pend calls cur].
  destruct next as [wide overlay sh stx [co ts]]. cbn.
  intros -> Hpos -> Hsh.
  unfold step, dispatch, render.
  unfold effectCurrentPosition, effectSelectedHotspot, effectSelectedTxn,
    resolveSelectedTxn, flushEffects, catch, when, bind, get. cbn.
  rewrite Hpos. cbn. rewrite findBounds_single. cbn.
  destruct Hsh as [-> | ->]; cbn; split_matches; reflexivity.
Qed.

(** X3.  A render moves the map only for a present source that changed:
    when the location is unchanged or absent and the selected hotspot
    is unchanged or absent, the bounds stay, whatever happens to the
    selected transaction (deselecting never moves the map). *)
Theorem render_without_present_source_keeps_bounds
  (st : State) (next : Inputs) :
  committed st ->
  samePosition (inputs st) next = true
  \/ coords (currentPosition next) = None ->
  same_ref (selectedHotspot (inputs st)) (selectedHotspot next) = true
  \/ selectedHotspot next = None ->
  bounds (step (Render next) st) = bounds st.
Proof.
  unfold committed, samePosition.
  destruct st as [sl h ws b mc i dirty pend calls cur].
  destruct next as [wide overlay sh stx [co ts]]. cbn.
  intros -> Hpos Hsh.
  unfold step, dispatch, render.
  unfold effectCurrentPosition, effectSelectedHotspot, effectSelectedTxn,
    resolveSelectedTxn, flushEffects, catch, when, bind, get. cbn.
  destruct Hpos as [-> | ->]; destruct Hsh as [-> | ->]; cbn; all_cases.
Qed.

(** *** The selected transaction at a render *)

(** X4.  When the selected transaction changes to none, or to one that
    is not a receipt, the transaction selection is cleared at once;
    resolutions in flight are not cancelled. *)
Theorem non_receipt_clears_selection (st : State) (next : Inputs) :
  committed st ->
  same_ref (selectedTxn (inputs st)) (selectedTxn next) = false ->
  isReceipt (selectedTxn next) = false ->
  let st' := step (Render next) st in
  selectedTxnHotspot st' = None /\
  selectedTxnWitnesses st' = [] /\
  pending st' = pending st.
Proof.
  unfold committed, isReceipt.
  destruct st as [sl h ws b mc i dirty pend calls cur].
  destruct next as [wide overlay sh stx pos]. cbn.
  intros -> Htxn Hrec.
  unfold step, dispatch, render.
  unfold effectCurrentPosition, effectSelectedHotspot, effectSelectedTxn,
    resolveSelectedTxn, flushEffects, catch, when, bind, get. cbn.
  rewrite Htxn. cbn.
  destruct stx as [t |]; cbn; all_cases.
Qed.

(** X5.  Selecting a receipt whose path has a first element starts one
    more resolution and sets no state: the previous transaction
    selection stays in place until a fetch settles. *)
Theorem receipt_starts_resolution
  (st : State) (next : Inputs) (txn : Ref Txn) :
  committed st ->
  same_ref (selectedTxn (inputs st)) (selectedTxn next) = false ->
  selectedTxn next = Some txn ->
  resumable txn ->
  let st' := step (Render next) st in
  pending st' = pending st ++ [txn] /\
  selectedTxnHotspot st' = selectedTxnHotspot st /\
  selectedTxnWitnesses st' = selectedTxnWitnesses st.
Proof.
  unfold committed, resumable, isReceipt.
  destruct st as [sl h ws b mc i dirty pend calls cur].
  destruct next as [wide overlay sh stx pos]. cbn.
  intros -> Htxn -> [Hrec Hpath].
  unfold step, dispatch, render.
  unfold effectCurrentPosition, effectSelectedHotspot, effectSelectedTxn,
    resolveSelectedTxn, flushEffects, catch, when, bind, get. cbn.
  rewrite Htxn. cbn. all_cases.
Qed.

(** X6.  Selecting a receipt with an empty path changes nothing: reading
    [challengee] of the missing first element throws inside the async
    function, before any fetch and any setter, so no resolution is
    started and the previous transaction selection stays. *)
Theorem receipt_without_path_is_ignored
  (st : State) (next : Inputs) (txn : Ref Txn) :
  committed st ->
  selectedTxn next = Some txn ->
  isReceipt (Some txn) = true ->
  path (deref txn) = [] ->
  let st' := step (Render next) st in
  resolveSelectedTxn (fst (setInputs next st))
  = (fst (setInputs next st), Throw TypeError) /\
  pending st' = pending st /\
  selectedTxnHotspot st' = selectedTxnHotspot st /\
  selectedTxnWitnesses st' = selectedTxnWitnesses st.
Proof.
  unfold committed, isReceipt.
  destruct st as [sl h ws b mc i dirty pend calls cur].
  destruct next as [wide overlay sh stx pos]. cbn.
  intros -> -> Hrec Hpath. split.
  - unfold resolveSelectedTxn, bind, get. cbn. rewrite Hrec, Hpath.
    reflexivity.
  - unfold step, dispatch, render.
    unfold effectCurrentPosition, effectSelectedHotspot, effectSelectedTxn,
      resolveSelectedTxn, flushEffects, catch, when, bind, get. cbn.
    cbn. all_cases.
Qed.

(** *** Settled fetches *)

(** X7.  A rejected fetch ends its resolution before the witnesses are
    read: the transaction selection and the bounds stay as they were,
    and that resolution alone leaves the suspended ones. *)
Theorem rejected_fetch_changes_nothing
  (st : State) (k : nat) (txn : Ref Txn) (e : Exn) :
  committed st ->
  pending st !! k = Some txn ->
  discarded st k (Throw e) /\
  pending (step (FetchSettled k (Throw e)) st) = delete k (pending st).
Proof.
  unfold committed, discarded.
  destruct st as [sl h ws b mc i dirty pend calls cur]. cbn.
  intros -> Hk.
  unfold step, dispatch, settle, bind, get. cbn. rewrite Hk.
  unfold catch, resumeSelectedTxn, flushEffects, when, bind, get, lift.
  cbn. auto.
Qed.

Lemma mapR_decode (l : list PathWitness) (ws : list Witness.t) :
  mapR decodeWitness l = Ok ws ->
  map Witness.source ws = l /\
  Forall (fun w => h3ToGeo (location (Witness.source w))
                   = Some (Witness.lat w, Witness.lng w)) ws.
Proof.
  revert ws. induction l as [| x l IH]; intros ws; cbn.
  - intros H. injection H as <-. split; constructor.
  - unfold decodeWitness at 1.
    destruct (h3ToGeo (location x)) as [[la lo] |] eqn:Hx; [| discriminate].
    destruct (mapR decodeWitness l) as [bs | e]; [| discriminate].
    intros H. injection H as <-. destruct (IH bs eq_refl) as [Hs Hf].
    split; cbn; [now rewrite Hs | constructor; [exact Hx | exact Hf]].
Qed.

Lemma mapR_all {A B : Type} (f : A -> Result B) (l : list A) :
  Forall (fun a => exists b, f a = Ok b) l -> exists bs, mapR f l = Ok bs.
Proof.
  induction 1 as [| a l [b Hb] _ [bs Hbs]]; cbn; [eauto |].
  rewrite Hb, Hbs. eauto.
Qed.


(** X8.  When every witness location of the receipt decodes and the
    fetch is fulfilled, the witnesses set are the entries of
    [path[0].witnesses], all of them and in their order, each extended
    with the [[lat, lng]] the decoder gave for its location. *)
Theorem decoded_witnesses_keep_their_entries
  (st : State) (k : nat) (txn : Ref Txn) (p0 : PathElement)
  (rest : list PathElement) (target : option Hotspot.t) :
  pending st !! k = Some txn ->
  path (deref txn) = p0 :: rest ->
  Forall (fun w => h3ToGeo (location w) <> None) (witnesses p0) ->
  let st' := step (FetchSettled k (Ok target)) st in
  selectedTxnHotspot st' = target /\
  map Witness.source (selectedTxnWitnesses st') = witnesses p0 /\
  Forall (fun w => h3ToGeo (location (Witness.source w))
                   = Some (Witness.lat w, Witness.lng w))
         (selectedTxnWitnesses st').
Proof.
  intros Hk Hpath Hall.
  assert (Hws : exists ws, mapR decodeWitness (witnesses p0) = Ok ws).
  { apply mapR_all. eapply Forall_impl; [exact Hall |]. cbn.
    intros w Hw. unfold decodeWitness.
    destruct (h3ToGeo (location w)) as [[la lo] |]; [eauto | congruence]. }
  destruct Hws as [ws Hws]. destruct (mapR_decode _ _ Hws) as [Hsrc Hdec].
  destruct st as [sl h ws0 b mc i dirty pend calls cur]. cbn in Hk.
  unfold step, dispatch, settle, bind, get. cbn. rewrite Hk.
  unfold catch, resumeSelectedTxn, flushEffects, effectSelectedTxn, when,
    bind, get, lift. rewrite Hpath, Hws. cbn.
  all_cases.
Qed.

(** X9.  Every suspended resolution, in every state the component can
    reach, is for a receipt whose path has a first element: the
    continuation after the [await] finds [path[0]] again. *)
Theorem pending_resolutions_are_resumable
  (i : Inputs) (evs : list Event) (k : nat) (txn : Ref Txn) :
  pending (run evs (mount i)) !! k = Some txn ->
  isReceipt (Some txn) = true /\
  exists p0 rest, path (deref txn) = p0 :: rest.
Proof.
  assert (Hinv : Forall resumable (pending (run evs (mount i)))).
  { assert (H0 : Forall resumable (pending (mount i))).
    { unfold mount, mountEffects, initialState.
      unfold effectCurrentPosition, effectSelectedHotspot, effectSelectedTxn,
        resolveSelectedTxn, flushEffects, catch, when, bind, get. cbn.
      split_matches; repeat constructor; cbn; congruence. }
    revert H0. generalize (mount i) as st.
    induction evs as [| ev evs IH]; intros st Hst; cbn; [exact Hst |].
    apply IH. clear IH.
    destruct st as [sl h ws b mc j dirty pend calls cur]. cbn in Hst.
    destruct ev as [next | | features | features | n r].
    - unfold step, dispatch, render.
      unfold effectCurrentPosition, effectSelectedHotspot, effectSelectedTxn,
        resolveSelectedTxn, flushEffects, catch, when, bind, get. cbn.
      split_matches; try exact Hst;
        apply Forall_app; (split; [exact Hst |]);
        repeat constructor; cbn; congruence.
    - exact Hst.
    - unfold step, dispatch, handleHotspotClick, bind, get. cbn.
      split_matches; exact Hst.
    - unfold step, dispatch, handleMouseMove. cbn.
      split_matches; exact Hst.
    - unfold step, dispatch, settle, resumeSelectedTxn.
      unfold effectSelectedTxn, flushEffects, catch, when, bind, get. cbn.
      assert (Hdel : Forall resumable (delete n pend))
        by now apply Forall_delete.
      split_matches; first [exact Hst | exact Hdel]. }
  intros Hk. rewrite Forall_lookup in Hinv.
  destruct (Hinv k txn Hk) as [Hrec Hpath]. split; [exact Hrec |].
  destruct (path (deref txn)) as [| p0 rest]; [congruence | eauto].
Qed.

(** *** The map reference and the handlers *)

Lemma dispatch_keeps_map_follows_style (ev : Event) :
  preserves map_follows_style (dispatch ev).
Proof.
  destruct ev as [next | | features | features | k r]; cbn.
  - unfold render, flushEffects, effectCurrentPosition, effectSelectedHotspot,
      effectSelectedTxn, resolveSelectedTxn, setInputs, setBounds,
      setTxnDepsChanged, setPending, setSelectedTxnHotspot,
      setSelectedTxnWitnesses.
    repeat frame_step.
  - intros st _. reflexivity.
  - unfold handleHotspotClick, selectHotspot, setBounds, setCursor.
    repeat frame_step.
  - unfold handleMouseMove, setCursor. repeat frame_step.
  - unfold settle, resumeSelectedTxn, flushEffects, effectSelectedTxn,
      setBounds, setTxnDepsChanged, setPending, setSelectedTxnHotspot,
      setSelectedTxnWitnesses.
    repeat frame_step.
Qed.

Lemma mount_map_follows_style (i : Inputs) : map_follows_style (mount i).
Proof.
  unfold mount, mountEffects.
  assert (H : preserves map_follows_style mountEffects).
  { unfold mountEffects, flushEffects, effectCurrentPosition,
      effectSelectedHotspot, effectSelectedTxn, resolveSelectedTxn,
      setBounds, setTxnDepsChanged, setPending, setSelectedTxnHotspot,
      setSelectedTxnWitnesses.
    repeat frame_step. }
  apply H. reflexivity.
Qed.

Lemma run_preserves (P : State -> Prop) (evs : list Event) (st : State) :
  (forall ev, preserves P (dispatch ev)) -> P st -> P (run evs st).
Proof.
  intros Hstep. revert st.
  induction evs as [| ev evs IH]; intros st Hst; cbn; [exact Hst |].
  apply IH. now apply Hstep.
Qed.

(** X10.  In every state the component can reach, [map.current] is set
    exactly when [styleLoaded] is: fits animate from the moment the
    click handler has a map to query, and not before. *)
Theorem map_is_set_exactly_when_style_loaded (i : Inputs) (evs : list Event) :
  let st := run evs (mount i) in
  mapCurrent st = styleLoaded st /\
  animate (fitOptions st) = mapCurrent st.
Proof.
  cbn zeta.
  assert (H : map_follows_style (run evs (mount i))).
  { apply run_preserves;
      [exact dispatch_keeps_map_follows_style | apply mount_map_follows_style]. }
  split; [exact H |].
  unfold fitOptions. rewrite fitBoundsOptions_animate. symmetry. exact H.
Qed.

(** X11.  Once the style has loaded, a click on at least one feature
    never throws, whatever happened in between, and leaves the cursor
    reset. *)
Theorem click_after_style_load_returns
  (st : State) (evs : list Event) (f : Feature) (fs : list Feature) :
  let st' := run evs (step StyleLoad st) in
  snd (handleHotspotClick (f :: fs) st') = Ok tt /\
  cursor (step (HotspotClick (f :: fs)) st') = "".
Proof.
  cbn zeta.
  assert (Hload : loaded (run evs (step StyleLoad st)))
    by (apply run_keeps_loaded; reflexivity).
  assert (Hmfs : map_follows_style (run evs (step StyleLoad st))).
  { apply run_preserves;
      [exact dispatch_keeps_map_follows_style | reflexivity]. }
  assert (Hmap : mapCurrent (run evs (step StyleLoad st)) = true)
    by (unfold map_follows_style, loaded in *; congruence).
  generalize dependent (run evs (step StyleLoad st)). intros s _ _ Hmap.
  unfold step, dispatch, handleHotspotClick, bind, get. rewrite Hmap. cbn.
  destruct fs as [| g rest]; cbn; auto.
Qed.

Lemma dispatch_keeps_map_unset (ev : Event) :
  is_style_load ev = false ->
  preserves (fun st => mapCurrent st = false) (dispatch ev).
Proof.
  destruct ev as [next | | features | features | k r]; cbn; intros Hev.
  - unfold render, flushEffects, effectCurrentPosition, effectSelectedHotspot,
      effectSelectedTxn, resolveSelectedTxn, setInputs, setBounds,
      setTxnDepsChanged, setPending, setSelectedTxnHotspot,
      setSelectedTxnWitnesses.
    repeat frame_step.
  - discriminate.
  - unfold handleHotspotClick, selectHotspot, setBounds, setCursor.
    repeat frame_step.
  - unfold handleMouseMove, setCursor. repeat frame_step.
  - unfold settle, resumeSelectedTxn, flushEffects, effectSelectedTxn,
      setBounds, setTxnDepsChanged, setPending, setSelectedTxnHotspot,
      setSelectedTxnWitnesses.
    repeat frame_step.
Qed.

(** X12.  Until the style has loaded, [map.current] is undefined: any
    click throws on reading it, before a feature is looked at, and
    changes nothing. *)
Theorem click_before_style_load_throws
  (i : Inputs) (evs : list Event) (features : list Feature) :
  Forall (fun ev => is_style_load ev = false) evs ->
  let st := run evs (mount i) in
  handleHotspotClick features st = (st, Throw TypeError) /\
  step (HotspotClick features) st = st.
Proof.
  intros Hevs. cbn zeta.
  assert (Hmap : mapCurrent (run evs (mount i)) = false).
  { assert (H0 : mapCurrent (mount i) = false).
    { pose proof (mount_map_follows_style i) as H.
      assert (Hl : preserves (fun s => styleLoaded s = false) mountEffects).
      { unfold mountEffects, flushEffects, effectCurrentPosition,
          effectSelectedHotspot, effectSelectedTxn, resolveSelectedTxn,
          setBounds, setTxnDepsChanged, setPending, setSelectedTxnHotspot,
          setSelectedTxnWitnesses.
        repeat frame_step. }
      unfold map_follows_style in H. rewrite H.
      apply (Hl (initialState i)). reflexivity. }
    revert H0. generalize (mount i) as s.
    induction Hevs as [| ev evs Hev _ IH]; intros s Hs; cbn; [exact Hs |].
    apply IH. now apply dispatch_keeps_map_unset. }
  assert (H : handleHotspotClick features (run evs (mount i))
              = (run evs (mount i), Throw TypeError)).
  { unfold handleHotspotClick, bind, get. rewrite Hmap. reflexivity. }
  split; [exact H |]. unfold step, dispatch. now rewrite H.
Qed.

(** X13.  [selectHotspot] is called by a click on exactly one feature
    and by nothing else: every other event leaves the calls made so far
    as they are. *)
Theorem only_a_single_click_selects (ev : Event) (st : State) :
  single_click ev = false ->
  selectCalls (step ev st) = selectCalls st.
Proof.
  intros Hev.
  assert (H : preserves (fun s => selectCalls s = selectCalls st) (dispatch ev)).
  { destruct ev as [next | | features | features | k r]; cbn.
    - unfold render, flushEffects, effectCurrentPosition,
        effectSelectedHotspot, effectSelectedTxn, resolveSelectedTxn,
        setInputs, setBounds, setTxnDepsChanged, setPending,
        setSelectedTxnHotspot, setSelectedTxnWitnesses.
      repeat frame_step.
    - unfold onStyleLoad, setMapCurrent, setStyledLoaded. repeat frame_step.
    - destruct features as [| f [| g rest]]; [| discriminate |];
        unfold handleHotspotClick, setBounds, setCursor; repeat frame_step.
    - unfold handleMouseMove, setCursor. repeat frame_step.
    - unfold settle, resumeSelectedTxn, flushEffects, effectSelectedTxn,
        setBounds, setTxnDepsChanged, setPending, setSelectedTxnHotspot,
        setSelectedTxnWitnesses.
      repeat frame_step. }
  apply H. reflexivity.
Qed.

(** A pointer move shows the pointer cursor exactly when it is over at
    least one feature, and touches nothing but the cursor. *)
Lemma mouse_move_sets_only_the_cursor (features : list Feature) (st : State) :
  let st' := step (MouseMove features) st in
  cursor st' = (if bool_decide (features = []) then "" else "pointer") /\
  bounds st' = bounds st /\
  selectCalls st' = selectCalls st /\
  selectedTxnHotspot st' = selectedTxnHotspot st /\
  selectedTxnWitnesses st' = selectedTxnWitnesses st /\
  pending st' = pending st /\
  fitOptions st' = fitOptions st.
Proof.
  destruct features as [| f fs]; cbn; repeat split; reflexivity.
Qed.

(** *** Sources side by side *)

Lemma settle_fulfilled
  (st : State) (k : nat) (txn : Ref Txn) (p0 : PathElement)
  (rest : list PathElement) (h : Hotspot.t) (ws : list Witness.t) :
  committed st ->
  pending st !! k = Some txn ->
  path (deref txn) = p0 :: rest ->
  mapR decodeWitness (witnesses p0) = Ok ws ->
  exists b,
    findBounds (txnSelectionPoints h ws) = Ok b /\
    step (FetchSettled k (Ok (Some h))) st
    = mkState (styleLoaded st) (Some h) ws b (mapCurrent st) (inputs st)
        false (delete k (pending st)) (selectCalls st) (cursor st).
Proof.
  unfold committed. destruct st as [sl h0 ws0 b0 mc i dirty pend calls cur].
  cbn. intros -> Hk Hpath Hws.
  destruct (findBounds_snoc
              (map (fun w => {| lat := Witness.lat w; lng := Witness.lng w |}) ws)
              {| lat := Hotspot.lat h; lng := Hotspot.lng h |}) as [b Hb].
  exists b. split; [exact Hb |].
  unfold step, dispatch, settle, bind, get. cbn. rewrite Hk.
  unfold catch, resumeSelectedTxn, flushEffects, effectSelectedTxn, when,
    bind, get, lift. rewrite Hpath, Hws. cbn. rewrite Hb. reflexivity.
Qed.

(** X14.  The bounds and the detail layer go different ways.  While a
    hotspot is selected, a transaction resolution that completes moves
    the bounds to the transaction's box, but the detail layer keeps
    drawing the selected hotspot; it draws the hotspot's own witnesses
    when it has a witness list (an empty one included) and the
    transaction's witnesses when it has none. *)
Theorem detail_layer_prefers_selected_hotspot
  (st : State) (k : nat) (txn : Ref Txn) (p0 : PathElement)
  (rest : list PathElement) (r : Ref Hotspot.t) (h : Hotspot.t)
  (ws : list Witness.t) :
  committed st ->
  selectedHotspot (inputs st) = Some r ->
  pending st !! k = Some txn ->
  path (deref txn) = p0 :: rest ->
  mapR decodeWitness (witnesses p0) = Ok ws ->
  let st' := step (FetchSettled k (Ok (Some h))) st in
  findBounds (txnSelectionPoints h ws) = Ok (bounds st') /\
  detailHotspot st' = Some (deref r) /\
  detailWitnesses st'
  = match Hotspot.witnesses (deref r) with
    | Some own => OfHotspot own
    | None => OfTxn ws
    end.
Proof.
  intros Hc Hsel Hk Hpath Hws. cbn zeta.
  destruct (settle_fulfilled st k txn p0 rest h ws Hc Hk Hpath Hws)
    as (b & Hb & ->).
  unfold detailHotspot, detailWitnesses. cbn. rewrite Hsel.
  split; [exact Hb |]. split; [reflexivity |].
  destruct (Hotspot.witnesses (deref r)); reflexivity.
Qed.

(** X15.  With no hotspot selected the detail layer draws the
    transaction selection, and after a resolution has completed the
    bounds hold what it draws: the target hotspot and every decoded
    witness lie in the box. *)
Theorem settled_bounds_hold_the_selection
  (st : State) (k : nat) (txn : Ref Txn) (p0 : PathElement)
  (rest : list PathElement) (h : Hotspot.t) (ws : list Witness.t) :
  committed st ->
  selectedHotspot (inputs st) = None ->
  pending st !! k = Some txn ->
  path (deref txn) = p0 :: rest ->
  mapR decodeWitness (witnesses p0) = Ok ws ->
  let st' := step (FetchSettled k (Ok (Some h))) st in
  detailHotspot st' = Some h /\
  detailWitnesses st' = OfTxn ws /\
  inside (bounds st') {| lat := Hotspot.lat h; lng := Hotspot.lng h |} /\
  Forall (fun w => inside (bounds st')
                     {| lat := Witness.lat w; lng := Witness.lng w |}) ws.
Proof.
  intros Hc Hsel Hk Hpath Hws. cbn zeta.
  destruct (settle_fulfilled st k txn p0 rest h ws Hc Hk Hpath Hws)
    as (b & Hb & ->).
  unfold detailHotspot, detailWitnesses. cbn. rewrite Hsel.
  split; [reflexivity |]. split; [reflexivity |].
  apply findBounds_encloses in Hb. unfold txnSelectionPoints in Hb.
  apply Forall_app in Hb as [Hw Hh].
  split; [now inversion Hh |].
  now rewrite Forall_fmap in Hw.
Qed.

(** X16.  The box a click on several features sets holds every one of
    them. *)
Theorem cluster_bounds_hold_every_hit
  (st : State) (f g : Feature) (rest : list Feature) :
  mapCurrent st = true ->
  let features := f :: g :: rest in
  Forall (fun x => inside (bounds (step (HotspotClick features) st))
                     (featurePoint x)) features.
Proof.
  intros Hmap. cbn zeta.
  assert (Hex : exists b, findBounds (map featurePoint (f :: g :: rest)) = Ok b)
    by (unfold findBounds, computeBounds; cbn; eauto).
  destruct Hex as [b Hb].
  assert (Hstep : bounds (step (HotspotClick (f :: g :: rest)) st) = b).
  { unfold step, dispatch, handleHotspotClick, bind, get. rewrite Hmap.
    cbn. cbn in Hb. rewrite Hb. reflexivity. }
  rewrite Hstep. apply findBounds_encloses in Hb.
  now rewrite Forall_fmap in Hb.
Qed.

(** X17.  A source that is present at the first render replaces the
    default box at once: a selected hotspot gives its box (also when a
    location is known, the hotspot effect running second); a location
    alone gives the zero-area box at the fix. *)
Theorem mount_with_source_replaces_default (i : Inputs) :
  (forall r, selectedHotspot i = Some r ->
             findBounds (hotspotPoints (deref r)) = Ok (bounds (mount i))) /\
  (forall c, selectedHotspot i = None ->
             coords (currentPosition i) = Some c ->
             bounds (mount i) = fixBox (deref c)).
Proof.
  destruct i as [wide overlay sh stx [co ts]]. cbn. split.
  - intros r ->.
    destruct (findBounds_snoc
                (map (fun w => {| lat := lat w; lng := lng w |})
                     (default [] (Hotspot.witnesses (deref r))))
                {| lat := Hotspot.lat (deref r); lng := Hotspot.lng (deref r) |})
      as [box Hbox].
    unfold hotspotPoints. rewrite Hbox. f_equal.
    unfold mount, mountEffects, initialState.
    unfold effectCurrentPosition, effectSelectedHotspot, effectSelectedTxn,
      resolveSelectedTxn, flushEffects, catch, when, bind, get. cbn.
    split_matches; cbn; rewrite ?Hbox; cbn; split_matches;
      try reflexivity; try congruence; effect_never_fails.
  - intros c -> ->.
    unfold mount, mountEffects, initialState.
    unfold effectCurrentPosition, effectSelectedHotspot, effectSelectedTxn,
      resolveSelectedTxn, flushEffects, catch, when, bind, get. cbn.
    rewrite findBounds_single. cbn. all_cases.
Qed.

End Component.

(** ** The model at concrete inputs *)

Import Sample.

(** A mounted component whose map has loaded, nothing selected. *)
Example loadedState_eq :
  step Sample.h3ToGeo StyleLoad (mount (inputsOf true None))
  = mkState true None [] US_EU_BOUNDS true (inputsOf true None) false [] [] "".
Proof. reflexivity. Qed.

Lemma computeBounds_extremes_witness :
  [ {| lat := 10; lng := 20 |} ] <> [] /\
  exists b : BoundingBox,
    findBounds [ {| lat := 10; lng := 20 |} ] = Ok b /\
    is_max [20] (fst (northeast b)) /\
    is_max [10] (snd (northeast b)) /\
    is_min [20] (fst (southwest b)) /\
    is_min [10] (snd (southwest b)) /\
    (forall p, [ {| lat := 10; lng := 20 |} ] = [p] ->
       northeast b = (lng p, lat p) /\ northeast b = southwest b).
Proof.
  split; [discriminate |].
  apply (computeBounds_extremes [ {| lat := 10; lng := 20 |} ]). discriminate.
Defined.

Lemma click_on_nothing_witness :
  let st := step Sample.h3ToGeo StyleLoad (mount (inputsOf true None)) in
  mapCurrent st = true /\
  handleHotspotClick [] st = (st, Throw InvalidArgument).
Proof.
  split; [reflexivity |].
  apply (click_on_nothing_calls_findBounds
           (step Sample.h3ToGeo StyleLoad (mount (inputsOf true None)))).
  reflexivity.
Defined.

Lemma click_disambiguation_witness :
  let st := step Sample.h3ToGeo StyleLoad (mount (inputsOf true None)) in
  mapCurrent st = true /\
  selectCalls (step Sample.h3ToGeo (HotspotClick [feature1]) st)
  = [Some (VStr "hotspot-a")] /\
  bounds (step Sample.h3ToGeo (HotspotClick [feature1]) st) = US_EU_BOUNDS /\
  bounds (step Sample.h3ToGeo (HotspotClick [feature1; feature2]) st)
  = {| northeast := (4, 3); southwest := (2, 1) |}.
Proof.
  pose proof (click_disambiguation Sample.h3ToGeo
                (step Sample.h3ToGeo StyleLoad (mount (inputsOf true None)))
                eq_refl) as (Hone & _ & Htwo).
  split; [reflexivity |].
  destruct (Hone feature1) as (_ & Hcalls & Hbounds).
  split; [exact Hcalls |]. split; [exact Hbounds |].
  exact (Htwo (properties feature1) (properties feature2)).
Defined.

Lemma default_bounds_at_startup_witness :
  let evs := [Render (inputsOf false None); StyleLoad;
              Render (inputsOf true None)] in
  no_source (inputsOf false None) /\
  Forall no_source_fires evs /\
  bounds (run Sample.h3ToGeo evs (mount (inputsOf false None))) = US_BOUNDS.
Proof.
  assert (Hi : forall wide, no_source (inputsOf wide None))
    by (intros wide; repeat split).
  assert (Hevs : Forall no_source_fires
                   [Render (inputsOf false None); StyleLoad;
                    Render (inputsOf true None)])
    by (repeat constructor).
  split; [apply Hi |]. split; [exact Hevs |].
  exact (proj2 (default_bounds_at_startup Sample.h3ToGeo
                  (inputsOf false None) _ (Hi false) Hevs)).
Defined.

Lemma context_change_keeps_bounds_witness :
  let st := step Sample.h3ToGeo (HotspotClick [feature1; feature2])
              (step Sample.h3ToGeo StyleLoad (mount (inputsOf false None))) in
  committed st /\
  bounds (step Sample.h3ToGeo (Render (withContext true true (inputs st))) st)
  = {| northeast := (4, 3); southwest := (2, 1) |} /\
  fitOptions (step Sample.h3ToGeo (Render (withContext true true (inputs st))) st)
  = {| padding := PerSide DESKTOP_PADDING; animate := true |}.
Proof.
  split; [reflexivity |].
  destruct (context_change_keeps_bounds Sample.h3ToGeo
              (step Sample.h3ToGeo (HotspotClick [feature1; feature2])
                 (step Sample.h3ToGeo StyleLoad (mount (inputsOf false None))))
              true true eq_refl) as (Hb & Hf & _).
  split; [exact Hb | exact Hf].
Defined.



(** The session of the stale resolution: transaction A is selected at
    mount, then B; the fetch for B is fulfilled first. *)
Lemma settled_result_is_applied_witness :
  let st := run Sample.h3ToGeo
              [Render (inputsOf true (Some txnB));
               FetchSettled 1 (Ok (Some hotspotB))]
              (mount (inputsOf true (Some txnA))) in
  let st' := step Sample.h3ToGeo (FetchSettled 0 (Ok (Some hotspotA))) st in
  committed st /\
  pending st !! 0%nat = Some txnA /\
  selectedTxn (inputs st) = Some txnB /\
  selectedTxnHotspot st' = Some hotspotA /\
  selectedTxnWitnesses st' = [] /\
  bounds st' = {| northeast := (-121, 37); southwest := (-121, 37) |}.
Proof.
  split; [reflexivity |]. split; [reflexivity |]. split; [reflexivity |].
  destruct (settled_result_is_applied Sample.h3ToGeo
              (run Sample.h3ToGeo
                 [Render (inputsOf true (Some txnB));
                  FetchSettled 1 (Ok (Some hotspotB))]
                 (mount (inputsOf true (Some txnA))))
              0 txnA _ _ (Some hotspotA) []
              eq_refl eq_refl eq_refl eq_refl) as (Hh & Hw & Hb).
  split; [exact Hh |]. split; [exact Hw |].
  apply Ok_inj. rewrite <- Hb. reflexivity.
Defined.

(** C2, as stated, fails.  Transaction A is selected at mount and B
    after it; the fetch for B is fulfilled first, so the selection and
    the bounds are those of B while the resolution for A is still
    suspended.  When the fetch for A is fulfilled, its result is not
    discarded: it replaces what was derived from B.  Neither receipt
    has a witness, so the boxes are those of the fetched hotspots. *)
Lemma stale_result_overwrites_selection :
  let st := run Sample.h3ToGeo
              [Render (inputsOf true (Some txnB));
               FetchSettled 1 (Ok (Some hotspotB))]
              (mount (inputsOf true (Some txnA))) in
  let st' := step Sample.h3ToGeo (FetchSettled 0 (Ok (Some hotspotA))) st in
  selectedTxn (inputs st) = Some txnB /\
  pending st = [txnA] /\
  selectedTxnHotspot st = Some hotspotB /\
  bounds st = {| northeast := (-73, 41); southwest := (-73, 41) |} /\
  selectedTxnHotspot st' = Some hotspotA /\
  bounds st' = {| northeast := (-121, 37); southwest := (-121, 37) |} /\
  ~ discarded Sample.h3ToGeo st 0 (Ok (Some hotspotA)).
Proof.
  do 6 (split; [reflexivity |]).
  intros (H & _). vm_compute in H. discriminate H.
Qed.

(** ** The further properties at concrete inputs *)

Import Scenario.

Lemma selected_hotspot_sets_bounds_witness :
  let st := mount (inputsOf true None) in
  let next := inputsWith (Some witnessed) (Some payment) located in
  committed st /\
  same_ref (selectedHotspot (inputs st)) (selectedHotspot next) = false /\
  bounds (step Sample.h3ToGeo (Render next) st)
  = {| northeast := (3, 49); southwest := (1, 47) |} /\
  inside (bounds (step Sample.h3ToGeo (Render next) st))
         {| lat := 48; lng := 2 |}.
Proof.
  split; [reflexivity |]. split; [reflexivity |].
  destruct (selected_hotspot_sets_bounds Sample.h3ToGeo
              (mount (inputsOf true None))
              (inputsWith (Some witnessed) (Some payment) located)
              witnessed eq_refl eq_refl eq_refl) as (Hb & Hin & _).
  split; [| exact Hin].
  apply Ok_inj. rewrite <- Hb. reflexivity.
Defined.

Lemma location_fix_recentres_witness :
  let st := mount (inputsOf true None) in
  let next := inputsWith None None located in
  committed st /\
  samePosition (inputs st) next = false /\
  bounds (step Sample.h3ToGeo (Render next) st)
  = {| northeast := (13, 52); southwest := (13, 52) |}.
Proof.
  split; [reflexivity |]. split; [reflexivity |].
  exact (location_fix_recentres Sample.h3ToGeo
           (mount (inputsOf true None)) (inputsWith None None located) theFix
           eq_refl eq_refl eq_refl (or_intror eq_refl)).
Defined.

Lemma render_without_present_source_keeps_bounds_witness :
  let st := step Sample.h3ToGeo (Render (inputsWith (Some witnessed) None located))
              (mount (inputsOf true None)) in
  let next := inputsWith None (Some payment) located in
  committed st /\
  samePosition (inputs st) next = true /\
  selectedHotspot next = None /\
  bounds (step Sample.h3ToGeo (Render next) st)
  = {| northeast := (3, 49); southwest := (1, 47) |}.
Proof.
  split; [reflexivity |]. split; [reflexivity |]. split; [reflexivity |].
  rewrite (render_without_present_source_keeps_bounds Sample.h3ToGeo
             (step Sample.h3ToGeo
                (Render (inputsWith (Some witnessed) None located))
                (mount (inputsOf true None)))
             (inputsWith None (Some payment) located)
             eq_refl (or_introl eq_refl) (or_intror eq_refl)).
  reflexivity.
Defined.

(** The session in which the resolution for A has completed. *)
Lemma non_receipt_clears_selection_witness :
  let st := step Sample.h3ToGeo (FetchSettled 0 (Ok (Some hotspotA)))
              (mount (inputsOf true (Some txnA))) in
  let next := inputsOf true (Some payment) in
  committed st /\
  selectedTxnHotspot st = Some hotspotA /\
  same_ref (selectedTxn (inputs st)) (selectedTxn next) = false /\
  isReceipt (selectedTxn next) = false /\
  selectedTxnHotspot (step Sample.h3ToGeo (Render next) st) = None /\
  selectedTxnWitnesses (step Sample.h3ToGeo (Render next) st) = [].
Proof.
  do 4 (split; [reflexivity |]).
  destruct (non_receipt_clears_selection Sample.h3ToGeo
              (step Sample.h3ToGeo (FetchSettled 0 (Ok (Some hotspotA)))
                 (mount (inputsOf true (Some txnA))))
              (inputsOf true (Some payment)) eq_refl eq_refl eq_refl)
    as (Hh & Hw & _).
  split; [exact Hh | exact Hw].
Defined.

Lemma receipt_starts_resolution_witness :
  let st := step Sample.h3ToGeo (FetchSettled 0 (Ok (Some hotspotA)))
              (mount (inputsOf true (Some txnA))) in
  let next := inputsOf true (Some txnB) in
  committed st /\
  same_ref (selectedTxn (inputs st)) (selectedTxn next) = false /\
  resumable txnB /\
  pending (step Sample.h3ToGeo (Render next) st) = [txnB] /\
  selectedTxnHotspot (step Sample.h3ToGeo (Render next) st) = Some hotspotA.
Proof.
  assert (Hres : resumable txnB) by (split; [reflexivity | discriminate]).
  split; [reflexivity |]. split; [reflexivity |]. split; [exact Hres |].
  destruct (receipt_starts_resolution Sample.h3ToGeo
              (step Sample.h3ToGeo (FetchSettled 0 (Ok (Some hotspotA)))
                 (mount (inputsOf true (Some txnA))))
              (inputsOf true (Some txnB)) txnB eq_refl eq_refl eq_refl Hres)
    as (Hp & Hh & _).
  split; [exact Hp | exact Hh].
Defined.

Lemma receipt_without_path_is_ignored_witness :
  let st := step Sample.h3ToGeo (FetchSettled 0 (Ok (Some hotspotA)))
              (mount (inputsOf true (Some txnA))) in
  let next := inputsOf true (Some receiptWithoutPath) in
  committed st /\
  isReceipt (Some receiptWithoutPath) = true /\
  path (deref receiptWithoutPath) = [] /\
  pending (step Sample.h3ToGeo (Render next) st) = [] /\
  selectedTxnHotspot (step Sample.h3ToGeo (Render next) st) = Some hotspotA.
Proof.
  do 3 (split; [reflexivity |]).
  destruct (receipt_without_path_is_ignored Sample.h3ToGeo
              (step Sample.h3ToGeo (FetchSettled 0 (Ok (Some hotspotA)))
                 (mount (inputsOf true (Some txnA))))
              (inputsOf true (Some receiptWithoutPath)) receiptWithoutPath
              eq_refl eq_refl eq_refl eq_refl)
    as (_ & Hp & Hh & _).
  split; [exact Hp | exact Hh].
Defined.

Lemma rejected_fetch_changes_nothing_witness :
  let st := mount (inputsOf true (Some txnA)) in
  committed st /\
  pending st !! 0%nat = Some txnA /\
  discarded Sample.h3ToGeo st 0 (Throw FetchError) /\
  pending (step Sample.h3ToGeo (FetchSettled 0 (Throw FetchError)) st) = [].
Proof.
  split; [reflexivity |]. split; [reflexivity |].
  exact (rejected_fetch_changes_nothing Sample.h3ToGeo
           (mount (inputsOf true (Some txnA))) 0 txnA FetchError
           eq_refl eq_refl).
Defined.

Lemma decoded_witnesses_keep_their_entries_witness :
  let st := mount (inputsOf true (Some txnBad)) in
  pending st !! 0%nat = Some txnBad /\
  Forall (fun w => Sample.h3ToGeo (location w) <> None) badWitnesses /\
  map Witness.source
      (selectedTxnWitnesses
         (step Sample.h3ToGeo (FetchSettled 0 (Ok (Some hotspotA))) st))
  = badWitnesses.
Proof.
  assert (Hall : Forall (fun w => Sample.h3ToGeo (location w) <> None)
                        badWitnesses)
    by (repeat constructor; discriminate).
  split; [reflexivity |]. split; [exact Hall |].
  destruct (decoded_witnesses_keep_their_entries Sample.h3ToGeo
              (mount (inputsOf true (Some txnBad))) 0 txnBad _ _
              (Some hotspotA) eq_refl eq_refl Hall) as (_ & Hsrc & _).
  exact Hsrc.
Defined.

Lemma pending_resolutions_are_resumable_witness :
  let st := run Sample.h3ToGeo [Render (inputsOf true (Some txnB))]
              (mount (inputsOf true (Some txnA))) in
  pending st !! 1%nat = Some txnB /\
  isReceipt (Some txnB) = true /\
  exists p0 rest, path (deref txnB) = p0 :: rest.
Proof.
  split; [reflexivity |].
  exact (pending_resolutions_are_resumable Sample.h3ToGeo
           (inputsOf true (Some txnA)) [Render (inputsOf true (Some txnB))]
           1 txnB eq_refl).
Defined.

Lemma click_before_style_load_throws_witness :
  let evs := [Render (inputsOf false None); MouseMove [feature1]] in
  let st := run Sample.h3ToGeo evs (mount (inputsOf true None)) in
  Forall (fun ev => is_style_load ev = false) evs /\
  handleHotspotClick [feature1] st = (st, Throw TypeError) /\
  step Sample.h3ToGeo (HotspotClick [feature1]) st = st.
Proof.
  assert (Hevs : Forall (fun ev => is_style_load ev = false)
                   [Render (inputsOf false None); MouseMove [feature1]])
    by (repeat constructor).
  split; [exact Hevs |].
  exact (click_before_style_load_throws Sample.h3ToGeo
           (inputsOf true None) _ [feature1] Hevs).
Defined.

Lemma only_a_single_click_selects_witness :
  let st := step Sample.h3ToGeo (HotspotClick [feature1])
              (step Sample.h3ToGeo StyleLoad (mount (inputsOf true None))) in
  single_click (HotspotClick [feature1; feature2]) = false /\
  selectCalls (step Sample.h3ToGeo (HotspotClick [feature1; feature2]) st)
  = [Some (VStr "hotspot-a")].
Proof.
  split; [reflexivity |].
  rewrite (only_a_single_click_selects Sample.h3ToGeo
             (HotspotClick [feature1; feature2])
             (step Sample.h3ToGeo (HotspotClick [feature1])
                (step Sample.h3ToGeo StyleLoad (mount (inputsOf true None))))
             eq_refl).
  reflexivity.
Defined.

Lemma detail_layer_prefers_selected_hotspot_witness :
  let st := mount (inputsWith (Some bare) (Some txnBad) noPosition) in
  let st' := step Sample.h3ToGeo (FetchSettled 0 (Ok (Some hotspotA))) st in
  committed st /\
  selectedHotspot (inputs st) = Some bare /\
  pending st !! 0%nat = Some txnBad /\
  findBounds (txnSelectionPoints hotspotA badDecoded) = Ok (bounds st') /\
  detailHotspot st' = Some (deref bare) /\
  detailWitnesses st' = OfTxn badDecoded /\
  map Witness.source badDecoded = badWitnesses.
Proof.
  do 3 (split; [reflexivity |]).
  destruct (detail_layer_prefers_selected_hotspot Sample.h3ToGeo
              (mount (inputsWith (Some bare) (Some txnBad) noPosition))
              0 txnBad _ _ bare hotspotA badDecoded
              eq_refl eq_refl eq_refl eq_refl eq_refl) as (Hb & Hh & Hw).
  split; [exact Hb |]. split; [exact Hh |]. split; [exact Hw | reflexivity].
Defined.

Lemma settled_bounds_hold_the_selection_witness :
  let st := mount (inputsOf true (Some txnBad)) in
  let st' := step Sample.h3ToGeo (FetchSettled 0 (Ok (Some hotspotA))) st in
  committed st /\
  selectedHotspot (inputs st) = None /\
  pending st !! 0%nat = Some txnBad /\
  detailHotspot st' = Some hotspotA /\
  detailWitnesses st' = OfTxn badDecoded /\
  inside (bounds st') {| lat := 37; lng := -121 |}.
Proof.
  do 3 (split; [reflexivity |]).
  destruct (settled_bounds_hold_the_selection Sample.h3ToGeo
              (mount (inputsOf true (Some txnBad))) 0 txnBad _ _ hotspotA
              badDecoded
              eq_refl eq_refl eq_refl eq_refl eq_refl) as (Hh & Hw & Hin & _).
  split; [exact Hh |]. split; [exact Hw | exact Hin].
Defined.

Lemma cluster_bounds_hold_every_hit_witness :
  let st := step Sample.h3ToGeo StyleLoad (mount (inputsOf true None)) in
  mapCurrent st = true /\
  Forall (fun x => inside
                     (bounds (step Sample.h3ToGeo
                                (HotspotClick [feature1; feature2; feature1]) st))
                     (featurePoint x))
         [feature1; feature2; feature1].
Proof.
  split; [reflexivity |].
  exact (cluster_bounds_hold_every_hit Sample.h3ToGeo
           (step Sample.h3ToGeo StyleLoad (mount (inputsOf true None)))
           feature1 feature2 [feature1] eq_refl).
Defined.

Lemma mount_with_source_replaces_default_witness :
  bounds (mount (inputsWith (Some witnessed) None located))
  = {| northeast := (3, 49); southwest := (1, 47) |} /\
  bounds (mount (inputsWith None None located))
  = {| northeast := (13, 52); southwest := (13, 52) |}.
Proof.
  split.
  - apply Ok_inj.
    rewrite <- (proj1 (mount_with_source_replaces_default
                         (inputsWith (Some witnessed) None located))
                      witnessed eq_refl).
    reflexivity.
  - exact (proj2 (mount_with_source_replaces_default
                    (inputsWith None None located)) theFix eq_refl eq_refl).
Defined.
